(** * Target discovery of test-network-function (package [autodiscover])

    A shallow embedding of [FindTestTarget], [GetNodesList],
    [FindTestDeployments], [buildPodUnderTest],
    [buildOperatorFromCSVResource], [getConfiguredOperatorTests],
    [getClusterCrdNames], [FindTestCrdNames] and of [utils.ExecuteCommand],
    followed by the properties of the discovery specification.

    Go code is rendered as follows.
    - A Go [string] is a [string] (a sequence of bytes), a slice is a [list],
      [map[string]Node] is a [gmap string Node.t], an [int] is a [Z].
    - Logging through logrus and the mutation of the [*TestTarget] handed to
      [FindTestTarget] are effects on an explicit state [St]; a run-time panic
      (an index out of range, a failed gomega expectation) stops the
      computation and keeps the state reached so far.
    - Everything the package calls but does not define in the files at hand
      (cluster queries, the node-name tester, the JSON decoder, the test
      configuration) is a field of the record [Externals]. *)

From stdpp Require Import gmap strings list.
From Stdlib Require Import ZArith Permutation.

Local Open Scope string_scope.
Local Open Scope list_scope.
Local Open Scope Z_scope.

(** ** Errors and results *)

(** Modelled from the spec: a Go [error] value, by the taxonomy of section 7
    of the specification; the errors themselves are made by code that is not
    among the sources. A string payload is the error text. *)
Inductive error :=
  | QueryFailure (msg : string)
  | AnnotationMissing (key : string)
  | AnnotationMalformed (key : string) (cause : error)
  | DecodeFailure (msg : string)
  | ConfigLoadFailure (msg : string).

(** The pair [(value, err)] a Go function returns, read the way every caller
    in the package reads it: the value counts only when [err == nil]. *)
Inductive result (A : Type) :=
  | Ok (a : A)
  | Err (e : error).
Arguments Ok {A} a.
Arguments Err {A} e.

(** ** The catalog ([pkg/config/configsections])

    Modelled from the spec: the declarations of package [configsections] are
    not among the sources. The structs carry the fields the source reads and
    writes; section 3 of the specification lists the same fields. *)

Module Label.
Record t := mk { Prefix : string; Name : string; Value : string }.
End Label.

Module ContainerIdentifier.
Record t := mk { Namespace : string; PodName : string; ContainerName : string }.
End ContainerIdentifier.

Module ContainerConfig.
Record t := mk { Identifier : ContainerIdentifier.t }.
End ContainerConfig.

Module Pod.
Record t := mk {
  Name : string;
  Namespace : string;
  ServiceAccount : string;
  ContainerCount : Z;
  Tests : list string }.
End Pod.

Module Operator.
Record t := mk {
  Name : string;
  Namespace : string;
  Tests : list string;
  SubscriptionName : string }.
End Operator.

Module Deployment.
Record t := mk { Name : string; Namespace : string; Replicas : Z }.
End Deployment.

Module Node.
Record t := mk { Name : string; Labels : list string }.
End Node.

Module CrdFilter.
Record t := mk { NameSuffix : string }.
End CrdFilter.

Module TestTarget.
Record t := mk {
  PodsUnderTest : list Pod.t;
  ContainerConfigList : list ContainerConfig.t;
  Operators : list Operator.t;
  DeploymentsUnderTest : list Deployment.t;
  Nodes : gmap string Node.t;
  ExcludeContainersFromConnectivityTests : list ContainerIdentifier.t }.

(** The zero value of the struct: nil slices and a nil map. *)
Definition empty : t := mk [] [] [] [] ∅ [].

(** Assignments to one field of the struct. *)
Definition setPodsUnderTest (v : list Pod.t) (x : t) : t :=
  mk v (ContainerConfigList x) (Operators x) (DeploymentsUnderTest x) (Nodes x)
    (ExcludeContainersFromConnectivityTests x).
Definition setContainerConfigList (v : list ContainerConfig.t) (x : t) : t :=
  mk (PodsUnderTest x) v (Operators x) (DeploymentsUnderTest x) (Nodes x)
    (ExcludeContainersFromConnectivityTests x).
Definition setOperators (v : list Operator.t) (x : t) : t :=
  mk (PodsUnderTest x) (ContainerConfigList x) v (DeploymentsUnderTest x) (Nodes x)
    (ExcludeContainersFromConnectivityTests x).
Definition setDeploymentsUnderTest (v : list Deployment.t) (x : t) : t :=
  mk (PodsUnderTest x) (ContainerConfigList x) (Operators x) v (Nodes x)
    (ExcludeContainersFromConnectivityTests x).
Definition setNodes (v : gmap string Node.t) (x : t) : t :=
  mk (PodsUnderTest x) (ContainerConfigList x) (Operators x) (DeploymentsUnderTest x) v
    (ExcludeContainersFromConnectivityTests x).
Definition setExcludeContainersFromConnectivityTests
    (v : list ContainerIdentifier.t) (x : t) : t :=
  mk (PodsUnderTest x) (ContainerConfigList x) (Operators x) (DeploymentsUnderTest x)
    (Nodes x) v.
End TestTarget.

(** ** Cluster resources (package [autodiscover])

    Modelled from the spec: [PodResource], [CSVResource] and the resource
    lists are declared in other files of the package. The structs carry the
    fields the source reads, and the annotations that [GetAnnotationValue]
    resolves (specification, section 4.2). *)

Module Metadata.
Record t := mk {
  Name : string;
  Namespace : string;
  Annotations : gmap string string }.
End Metadata.

Module Container.
Record t := mk { Name : string }.
End Container.

Module PodSpec.
Record t := mk { ServiceAccount : string; Containers : list Container.t }.
End PodSpec.

Module PodResource.
Record t := mk { Metadata : Metadata.t; Spec : PodSpec.t }.
End PodResource.

Module PodList.
Record t := mk { Items : list PodResource.t }.
End PodList.

Module CSVResource.
Record t := mk { Metadata : Metadata.t }.
End CSVResource.

Module CSVList.
Record t := mk { Items : list CSVResource.t }.
End CSVList.

(** A deployment resource, seen through its getters [GetName],
    [GetNamespace] and [GetReplicas]. *)
Module DeploymentResource.
Record t := mk { GetName : string; GetNamespace : string; GetReplicas : Z }.
End DeploymentResource.

Module DeploymentList.
Record t := mk { Items : list DeploymentResource.t }.
End DeploymentList.

(** The test configuration file ([pkg/tnf/testcases]). *)
Module ConfiguredTest.
Record t := mk { Name : string }.
End ConfiguredTest.

Module ConfiguredTestCase.
Record t := mk { OperatorTest : list ConfiguredTest.t }.
End ConfiguredTestCase.

(** ** Log records

    One constructor per logging call of the two source files, named by its
    logrus level and carrying the values the call formats. *)
Inductive LogEntry :=
  | Warnf_query_by_label (l : Label.t) (err : error)
  | Warnf_exclude_containers (err : error)
  | Warnf_operators_by_label (err : error)
  | Error_node_list (err : error)
  | Error_deployment_list (namespace : string) (err : error)
  | Warnf_pod_tests (namespace name : string) (err : error)
  | Warnf_operator_tests (namespace name : string) (err : error)
  | Warnf_subscription_name (name : string) (err : error)
  | Errorf_load_test_file
  | Infof_op_tests (opTests : list string)
  | Debugf_executing (command : string)
  | Error_cant_run (command : string)
  | Errorf_cluster_crd.

(** ** The effect monad *)

(** How a computation ends: with a value, or with a Go run-time panic. *)
Inductive Outcome (A : Type) :=
  | Done (a : A)
  | Panic (msg : string).
Arguments Done {A} a.
Arguments Panic {A} msg.

(** The state a discovery call works on: the catalog behind the [target]
    pointer and the log written so far. *)
Record St := mkSt { target : TestTarget.t; logs : list LogEntry }.

Definition M (A : Type) : Type := St -> Outcome A * St.

#[global] Instance M_ret : MRet M := fun A a s => (Done a, s).

#[global] Instance M_bind : MBind M := fun A B f m s =>
  match m s with
  | (Done a, s') => f a s'
  | (Panic msg, s') => (Panic msg, s')
  end.

Definition panic {A} (msg : string) : M A := fun s => (Panic msg, s).

Definition log (e : LogEntry) : M unit :=
  fun s => (Done tt, mkSt (target s) (logs s ++ [e])).

(** A write through the [target] pointer. *)
Definition modifyTarget (f : TestTarget.t -> TestTarget.t) : M unit :=
  fun s => (Done tt, mkSt (f (target s)) (logs s)).

(** [for _, x := range l { body x }]. *)
Fixpoint forRange {A} (l : list A) (body : A -> M unit) : M unit :=
  match l with
  | [] => mret tt
  | x :: l' => body x ;; forRange l' body
  end.

(** [for _, x := range l { acc = body acc x }], for a loop that grows a
    local variable. *)
Fixpoint foldRange {A B} (l : list A) (acc : B) (body : B -> A -> M B) : M B :=
  match l with
  | [] => mret acc
  | x :: l' => acc' ← body acc x; foldRange l' acc' body
  end.

(** [s[i]] on a slice: a run-time panic when [i] is out of range. *)
Definition index {A} (s : list A) (i : nat) : M A :=
  match s !! i with
  | Some x => mret x
  | None => panic "runtime error: index out of range"
  end.

(** ** External collaborators *)

(** What running the generic command handler yields inside
    [utils.ExecuteCommand]. *)
Inductive CommandRun :=
  | HandlerInvalid
  | RunFailed
  | RunSucceeded (matches : list string).

(** Everything the two source files call and do not define. Queries are
    functions of their arguments: the record describes one cluster state. *)
Record Externals := mkExternals {
  (** constants of package [autodiscover] declared in other files *)
  tnfLabelPrefix : string;
  anyLabelValue : string;
  (** [configsections.MasterLabel] and [configsections.WorkerLabel] *)
  MasterLabel : string;
  WorkerLabel : string;
  (** label queries of package [autodiscover] *)
  GetPodsByLabel : Label.t -> string -> result PodList.t;
  getContainerIdentifiersByLabel :
    Label.t -> string -> list ContainerIdentifier.t * option error;
  GetCSVsByLabel : string -> string -> string -> result CSVList.t;
  GetTargetDeploymentsByNamespace : string -> Label.t -> result DeploymentList.t;
  buildContainersFromPodResource : PodResource.t -> list ContainerConfig.t;
  (** [nodenames.NewNodeNames] for a role label, [test.Run] and
      [tester.GetNodeNames]: the error of the run, or the names *)
  runNodeNames : string -> result (list string);
  (** [testcases.GetConfiguredPodTests] and [testcases.LoadConfiguredTestFile] *)
  GetConfiguredPodTests : list string;
  LoadConfiguredTestFile : result ConfiguredTestCase.t;
  (** the generic handler run on the escaped command *)
  runGenericCommand : string -> CommandRun;
  (** [json.Unmarshal] into a [[]string] *)
  jsonUnmarshal : string -> result (list string) }.

(** ** Package [utils] *)

(** [strings.HasSuffix(s, suffix)]:
    [len(s) >= len(suffix) && s[len(s)-len(suffix):] == suffix]. *)
Definition HasSuffix (s suffix : string) : bool :=
  (String.length suffix <=? String.length s)%nat
  && String.eqb
       (String.substring (String.length s - String.length suffix) (String.length suffix) s)
       suffix.

(** [strings.ReplaceAll] as [ExecuteCommand] calls it: a backslash (byte 92)
    goes before every double quote (byte 34) of the command. *)
Fixpoint escapeQuotes (command : string) : string :=
  match command with
  | EmptyString => EmptyString
  | String c rest =>
      if Ascii.eqb c (Ascii.ascii_of_nat 34)
      then String (Ascii.ascii_of_nat 92) (String c (escapeQuotes rest))
      else String c (escapeQuotes rest)
  end.

Section Discovery.

Context (env : Externals).

(** [utils.ExecuteCommand]. A gomega expectation that fails does not return:
    it is a panic here. [RunAndValidateWithFailureCallback] calls the
    callback when the run fails and then expects success. *)
Definition ExecuteCommand (command : string) (failureCallbackFun : M unit) : M string :=
  log (Debugf_executing command) ;;
  match runGenericCommand env (escapeQuotes command) with
  | HandlerInvalid => panic "gomega: expectation failed"
  | RunFailed => failureCallbackFun ;; panic "gomega: expectation failed"
  | RunSucceeded matches =>
      if decide (length matches = 1%nat)
      then index matches 0
      else panic "gomega: expectation failed"
  end.

(** ** Package [autodiscover] *)

Definition operatorLabelName := "operator".
Definition skipConnectivityTestsLabel := "skip_connectivity_tests".
Definition ocGetClusterCrdNamesCommand :=
  "kubectl get crd -o json | jq '[.items[].metadata.name]'".

(** Modelled from the spec: [buildAnnotationName] is declared in another file
    of the package; the three annotation keys share one vendor prefix. *)
Definition buildAnnotationName (annotationName : string) : string :=
  tnfLabelPrefix env +:+ "/" +:+ annotationName.

Definition operatorTestsAnnotationName := buildAnnotationName "operator_tests".
Definition subscriptionNameAnnotationName := buildAnnotationName "subscription_name".
Definition podTestsAnnotationName := buildAnnotationName "host_resource_tests".

(** Modelled from the spec: the method [GetAnnotationValue] of [PodResource]
    and [CSVResource] is declared in another file of the package. The value
    of the annotation is decoded as a JSON list of strings; a missing
    annotation and a value that does not decode are failures, and nothing is
    returned beside the failure (spec, section 4.2). *)
Definition GetAnnotationValue (md : Metadata.t) (annotationKey : string)
    : result (list string) :=
  match Metadata.Annotations md !! annotationKey with
  | None => Err (AnnotationMissing annotationKey)
  | Some val =>
      match jsonUnmarshal env val with
      | Ok v => Ok v
      | Err cause => Err (AnnotationMalformed annotationKey cause)
      end
  end.

(** [buildPodUnderTest] builds a single [Pod] from a [PodResource]. *)
Definition buildPodUnderTest (pr : PodResource.t) : M Pod.t :=
  let Namespace := Metadata.Namespace (PodResource.Metadata pr) in
  let Name := Metadata.Name (PodResource.Metadata pr) in
  let ServiceAccount := PodSpec.ServiceAccount (PodResource.Spec pr) in
  let ContainerCount := Z.of_nat (length (PodSpec.Containers (PodResource.Spec pr))) in
  match GetAnnotationValue (PodResource.Metadata pr) podTestsAnnotationName with
  | Err err =>
      log (Warnf_pod_tests Namespace Name err) ;;
      mret (Pod.mk Name Namespace ServiceAccount ContainerCount
              (GetConfiguredPodTests env))
  | Ok tests =>
      mret (Pod.mk Name Namespace ServiceAccount ContainerCount tests)
  end.

(** [getConfiguredOperatorTests] loads the configured test file and extracts
    the names of the operator test groups from it. *)
Definition getConfiguredOperatorTests : M (list string) :=
  match LoadConfiguredTestFile env with
  | Err _ => log Errorf_load_test_file ;; mret []
  | Ok configuredTests =>
      let opTests :=
        foldl (fun opTests configuredTest => opTests ++ [ConfiguredTest.Name configuredTest])
          [] (ConfiguredTestCase.OperatorTest configuredTests) in
      log (Infof_op_tests opTests) ;; mret opTests
  end.

(** [buildOperatorFromCSVResource] builds a single [Operator] from a
    [CSVResource]. [op.SubscriptionName] keeps its zero value when the
    annotation does not resolve; otherwise it is [subscriptionName[0]]. *)
Definition buildOperatorFromCSVResource (csv : CSVResource.t) : M Operator.t :=
  let Name := Metadata.Name (CSVResource.Metadata csv) in
  let Namespace := Metadata.Namespace (CSVResource.Metadata csv) in
  Tests ←
    match GetAnnotationValue (CSVResource.Metadata csv) operatorTestsAnnotationName with
    | Err err => log (Warnf_operator_tests Namespace Name err) ;; getConfiguredOperatorTests
    | Ok tests => mret tests
    end;
  SubscriptionName ←
    match GetAnnotationValue (CSVResource.Metadata csv) subscriptionNameAnnotationName with
    | Err err => log (Warnf_subscription_name Name err) ;; mret EmptyString
    | Ok subscriptionName => index subscriptionName 0
    end;
  mret (Operator.mk Name Namespace Tests SubscriptionName).

(** [FindTestDeployments]: the deployments of every label, in label order. *)
Definition FindTestDeployments (targetLabels : list Label.t) (namespace : string)
    : M (list Deployment.t) :=
  foldRange targetLabels [] (fun deployments label =>
    match GetTargetDeploymentsByNamespace env namespace label with
    | Err err => log (Error_deployment_list namespace err) ;; mret deployments
    | Ok deploymentResourceList =>
        mret (foldl (fun deployments deploymentResource =>
                deployments ++
                [Deployment.mk (DeploymentResource.GetName deploymentResource)
                   (DeploymentResource.GetNamespace deploymentResource)
                   (DeploymentResource.GetReplicas deploymentResource)])
              deployments (DeploymentList.Items deploymentResourceList))
    end).

(** The first loop of [GetNodesList]: every name of the master query gets a
    fresh entry. *)
Definition addMasterNodes (nodes : gmap string Node.t) (nodeNames : list string)
    : gmap string Node.t :=
  foldl (fun nodes name => <[name := Node.mk name [MasterLabel env]]> nodes)
    nodes nodeNames.

(** The second loop of [GetNodesList]: a name already in the map has the
    worker label appended to its labels, another name gets a fresh entry. *)
Definition addWorkerNodes (nodes : gmap string Node.t) (nodeNames : list string)
    : gmap string Node.t :=
  foldl (fun nodes name =>
           match nodes !! name with
           | Some node =>
               <[name := Node.mk (Node.Name node) (Node.Labels node ++ [WorkerLabel env])]> nodes
           | None => <[name := Node.mk name [WorkerLabel env]]> nodes
           end)
    nodes nodeNames.

(** [GetNodesList] returns the nodes and their roles. When the master query
    fails the function returns at once, with the map still empty. *)
Definition GetNodesList : M (gmap string Node.t) :=
  let nodes : gmap string Node.t := ∅ in
  match runNodeNames env (MasterLabel env) with
  | Err err => log (Error_node_list err) ;; mret nodes
  | Ok nodeNames =>
      let nodes := addMasterNodes nodes nodeNames in
      match runNodeNames env (WorkerLabel env) with
      | Err err => log (Error_node_list err) ;; mret nodes
      | Ok nodeNames => mret (addWorkerNodes nodes nodeNames)
      end
  end.

(** [getClusterCrdNames] returns the list of CRD names found in the cluster,
    or the error of the JSON decoder. *)
Definition getClusterCrdNames : M (result (list string)) :=
  out ← ExecuteCommand ocGetClusterCrdNamesCommand
          (log (Error_cant_run ocGetClusterCrdNamesCommand));
  match jsonUnmarshal env out with
  | Err err => mret (Err err)
  | Ok crdNamesList => mret (Ok crdNamesList)
  end.

(** The inner loop of [FindTestCrdNames] for one CRD name: the name is
    appended at the first filter whose suffix it ends with, and the [break]
    leaves the loop there. *)
Fixpoint matchCrdFilters (crdName : string) (crdFilters : list CrdFilter.t)
    (targetCrdNames : list string) : list string :=
  match crdFilters with
  | [] => targetCrdNames
  | crdFilter :: rest =>
      if HasSuffix crdName (CrdFilter.NameSuffix crdFilter)
      then targetCrdNames ++ [crdName]
      else matchCrdFilters crdName rest targetCrdNames
  end.

(** [FindTestCrdNames] gets the list of CRD names based on configured groups. *)
Definition FindTestCrdNames (crdFilters : list CrdFilter.t) : M (list string) :=
  r ← getClusterCrdNames;
  match r with
  | Err _ => log Errorf_cluster_crd ;; mret []
  | Ok clusterCrdNames =>
      mret (foldl (fun targetCrdNames crdName =>
                     matchCrdFilters crdName crdFilters targetCrdNames)
              [] clusterCrdNames)
  end.

(** [FindTestTarget] finds test targets from the current state of the
    cluster and adds them to the [TestTarget] of the state. *)
Definition FindTestTarget (labels : list Label.t) (namespace : string) : M unit :=
  forRange labels (fun l =>
    match GetPodsByLabel env l namespace with
    | Ok pods =>
        forRange (PodList.Items pods) (fun pr =>
          pod ← buildPodUnderTest pr;
          modifyTarget (fun t =>
            TestTarget.setPodsUnderTest (TestTarget.PodsUnderTest t ++ [pod]) t) ;;
          modifyTarget (fun t =>
            TestTarget.setContainerConfigList
              (TestTarget.ContainerConfigList t ++ buildContainersFromPodResource env pr) t))
    | Err err => log (Warnf_query_by_label l err)
    end) ;;
  let '(identifiers, err) :=
    getContainerIdentifiersByLabel env
      (Label.mk (tnfLabelPrefix env) skipConnectivityTestsLabel (anyLabelValue env))
      namespace in
  modifyTarget (TestTarget.setExcludeContainersFromConnectivityTests identifiers) ;;
  match err with
  | Some err => log (Warnf_exclude_containers err)
  | None => mret tt
  end ;;
  match GetCSVsByLabel env operatorLabelName (anyLabelValue env) namespace with
  | Ok csvs =>
      forRange (CSVList.Items csvs) (fun csv =>
        op ← buildOperatorFromCSVResource csv;
        modifyTarget (fun t =>
          TestTarget.setOperators (TestTarget.Operators t ++ [op]) t))
  | Err err => log (Warnf_operators_by_label err)
  end ;;
  deployments ← FindTestDeployments labels namespace;
  modifyTarget (fun t =>
    TestTarget.setDeploymentsUnderTest (TestTarget.DeploymentsUnderTest t ++ deployments) t) ;;
  nodes ← GetNodesList;
  modifyTarget (TestTarget.setNodes nodes).

End Discovery.

(** ** A concrete cluster

    The inputs on which the properties below are evaluated. *)
Module Fixture.

Definition dquote : Ascii.ascii := Ascii.ascii_of_nat 34.

Definition isBlank (c : Ascii.ascii) : bool :=
  Ascii.eqb c (Ascii.ascii_of_nat 32) || Ascii.eqb c (Ascii.ascii_of_nat 10).

(** The JSON text of a list of strings that need no escaping. *)
Definition jsonArray (l : list string) : string :=
  "[" +:+ String.concat "," (map (fun x => String dquote (x +:+ String dquote EmptyString)) l)
  +:+ "]".

Inductive DecoderState := AtStart | AfterOpen | InString | AfterString | AfterComma | AtEnd.

(** A decoder for the JSON texts used below: an array of string literals
    without escape sequences, blanks allowed between the tokens. It stands
    for [json.Unmarshal] on these texts only and rejects every other text. *)
Fixpoint decodeFrom (st : DecoderState) (cur : string) (acc : list string) (text : string)
    : option (list string) :=
  match text with
  | EmptyString => match st with AtEnd => Some acc | _ => None end
  | String c rest =>
      match st with
      | InString =>
          if Ascii.eqb c dquote then decodeFrom AfterString EmptyString (acc ++ [cur]) rest
          else if Ascii.eqb c (Ascii.ascii_of_nat 92) then None
          else decodeFrom InString (cur +:+ String c EmptyString) acc rest
      | _ =>
          if isBlank c then decodeFrom st cur acc rest
          else
            match st with
            | AtStart =>
                if Ascii.eqb c (Ascii.ascii_of_nat 91) then decodeFrom AfterOpen cur acc rest
                else None
            | AfterOpen =>
                if Ascii.eqb c (Ascii.ascii_of_nat 93) then decodeFrom AtEnd cur acc rest
                else if Ascii.eqb c dquote then decodeFrom InString cur acc rest
                else None
            | AfterString =>
                if Ascii.eqb c (Ascii.ascii_of_nat 44) then decodeFrom AfterComma cur acc rest
                else if Ascii.eqb c (Ascii.ascii_of_nat 93) then decodeFrom AtEnd cur acc rest
                else None
            | AfterComma =>
                if Ascii.eqb c dquote then decodeFrom InString cur acc rest else None
            | _ => None
            end
      end
  end.

Definition decodeStringArray (text : string) : result (list string) :=
  match decodeFrom AtStart EmptyString [] text with
  | Some l => Ok l
  | None => Err (DecodeFailure "json: cannot unmarshal into Go value of type []string")
  end.

Definition ns : string := "tnf".

Definition targetLabel : Label.t := Label.mk "test-network-function.com" "generic" "target".

(** A pod, given by its name and its annotations. *)
Definition pod (name : string) (annotations : gmap string string) : PodResource.t :=
  PodResource.mk (Metadata.mk name ns annotations)
    (PodSpec.mk "default" [Container.mk "main"]).

Definition csv (name : string) (annotations : gmap string string) : CSVResource.t :=
  CSVResource.mk (Metadata.mk name ns annotations).

(** A cluster with the given pods behind [targetLabel], the given CSVs, the
    given answers of the two node queries and the given run of the CRD
    listing command. One deployment and one pod test group are configured. *)
Definition cluster (pods : list PodResource.t) (csvs : list CSVResource.t)
    (masters workers : result (list string)) (crdRun : CommandRun) : Externals :=
  {| tnfLabelPrefix := "test-network-function.com";
     anyLabelValue := EmptyString;
     MasterLabel := "node-role.kubernetes.io/master";
     WorkerLabel := "node-role.kubernetes.io/worker";
     GetPodsByLabel := fun l _ =>
       if decide (Label.Name l = "generic") then Ok (PodList.mk pods)
       else Err (QueryFailure "no such label");
     getContainerIdentifiersByLabel := fun _ _ => ([], None);
     GetCSVsByLabel := fun _ _ _ => Ok (CSVList.mk csvs);
     GetTargetDeploymentsByNamespace := fun namespace _ =>
       Ok (DeploymentList.mk [DeploymentResource.mk "web" namespace 2]);
     buildContainersFromPodResource := fun pr =>
       map (fun c =>
              ContainerConfig.mk
                (ContainerIdentifier.mk (Metadata.Namespace (PodResource.Metadata pr))
                   (Metadata.Name (PodResource.Metadata pr)) (Container.Name c)))
         (PodSpec.Containers (PodResource.Spec pr));
     runNodeNames := fun label =>
       if decide (label = "node-role.kubernetes.io/master") then masters else workers;
     GetConfiguredPodTests := ["generic"];
     LoadConfiguredTestFile :=
       Ok (ConfiguredTestCase.mk [ConfiguredTest.mk "operator-status"]);
     runGenericCommand := fun _ => crdRun;
     jsonUnmarshal := decodeStringArray |}.

Definition s0 : St := mkSt TestTarget.empty [].

End Fixture.


(** ** Package [utils], continued *)

(** [strings.Split(s, sep)] for a separator of one byte, as [ArgListToMap]
    calls it: the pieces of [s] between the occurrences of [sep], in order.
    There is always at least one piece. *)
Fixpoint Split (s : string) (sep : Ascii.ascii) : list string :=
  match s with
  | EmptyString => [EmptyString]
  | String c rest =>
      if Ascii.eqb c sep then EmptyString :: Split rest sep
      else
        match Split rest sep with
        | piece :: pieces => String c piece :: pieces
        | [] => [String c EmptyString]
        end
  end.

(** The byte of the equals sign. *)
Definition equalsSign : Ascii.ascii := Ascii.ascii_of_nat 61.

(** [ArgListToMap] takes a list of strings of the form key=value and
    translates it into a map from key to value. The two index expressions
    [splitArgs[0]] and [splitArgs[1]] are lookups that may fail: [None] is a
    run-time panic. *)
Definition ArgListToMap (lst : list string) : option (gmap string string) :=
  foldl (fun retval arg =>
           retval ← retval;
           let splitArgs := Split arg equalsSign in
           if decide (length splitArgs = 1%nat)
           then key ← splitArgs !! 0%nat; Some (<[key := EmptyString]> retval)
           else key ← splitArgs !! 0%nat; value ← splitArgs !! 1%nat;
                Some (<[key := value]> retval))
    (Some ∅) lst.

(** [FilterArray] takes a list and a predicate and returns the list of the
    elements for which the predicate returns true. *)
Definition FilterArray (vs : list string) (f : string -> bool) : list string :=
  foldl (fun vsf v => if f v then vsf ++ [v] else vsf) [] vs.
(** ** What the builders and loops compute

    The values the effectful functions return, as plain functions of the
    cluster; the lemmas of the next part relate the two. *)

(** The operator test groups used as fallback: the names of the configured
    file, or nothing when the file does not load. *)
Definition configuredOperatorTests (env : Externals) : list string :=
  match LoadConfiguredTestFile env with
  | Err _ => []
  | Ok configuredTests =>
      map ConfiguredTest.Name (ConfiguredTestCase.OperatorTest configuredTests)
  end.

(** The tests of the pod built from [pr]. *)
Definition podTestsOf (env : Externals) (pr : PodResource.t) : list string :=
  match GetAnnotationValue env (PodResource.Metadata pr) (podTestsAnnotationName env) with
  | Ok tests => tests
  | Err _ => GetConfiguredPodTests env
  end.

Definition podOf (env : Externals) (pr : PodResource.t) : Pod.t :=
  Pod.mk (Metadata.Name (PodResource.Metadata pr))
    (Metadata.Namespace (PodResource.Metadata pr))
    (PodSpec.ServiceAccount (PodResource.Spec pr))
    (Z.of_nat (length (PodSpec.Containers (PodResource.Spec pr))))
    (podTestsOf env pr).

(** The tests of the operator built from [csv]. *)
Definition operatorTestsOf (env : Externals) (csv : CSVResource.t) : list string :=
  match GetAnnotationValue env (CSVResource.Metadata csv) (operatorTestsAnnotationName env) with
  | Ok tests => tests
  | Err _ => configuredOperatorTests env
  end.

(** The subscription name of the operator built from [csv]; [None] when the
    annotation resolves to a list without a first element. *)
Definition subscriptionNameOf (env : Externals) (csv : CSVResource.t) : option string :=
  match GetAnnotationValue env (CSVResource.Metadata csv) (subscriptionNameAnnotationName env) with
  | Ok subscriptionName => head subscriptionName
  | Err _ => Some EmptyString
  end.

Definition operatorWith (env : Externals) (csv : CSVResource.t) (subscriptionName : string)
    : Operator.t :=
  Operator.mk (Metadata.Name (CSVResource.Metadata csv))
    (Metadata.Namespace (CSVResource.Metadata csv))
    (operatorTestsOf env csv) subscriptionName.

(** The roles of a node are exactly [roles]: its labels read as a set. *)
Definition hasRoles (node : Node.t) (roles : list string) : Prop :=
  forall r, r ∈ Node.Labels node <-> r ∈ roles.

(** The map [GetNodesList] returns. *)
Definition nodesOf (env : Externals) : gmap string Node.t :=
  match runNodeNames env (MasterLabel env) with
  | Err _ => ∅
  | Ok masters =>
      match runNodeNames env (WorkerLabel env) with
      | Err _ => addMasterNodes env ∅ masters
      | Ok workers => addWorkerNodes env (addMasterNodes env ∅ masters) workers
      end
  end.

(** The pod resources found for one label, and for all labels in order:
    a label whose query fails contributes nothing. *)
Definition podResourcesOfLabel (env : Externals) (namespace : string) (l : Label.t)
    : list PodResource.t :=
  match GetPodsByLabel env l namespace with
  | Ok pods => PodList.Items pods
  | Err _ => []
  end.

Definition podResourcesOf (env : Externals) (labels : list Label.t) (namespace : string)
    : list PodResource.t :=
  flat_map (podResourcesOfLabel env namespace) labels.

(** The two appends [FindTestTarget] makes for one pod resource. *)
Definition addPod (env : Externals) (pr : PodResource.t) (t : TestTarget.t) : TestTarget.t :=
  let t1 := TestTarget.setPodsUnderTest (TestTarget.PodsUnderTest t ++ [podOf env pr]) t in
  TestTarget.setContainerConfigList
    (TestTarget.ContainerConfigList t1 ++ buildContainersFromPodResource env pr) t1.

Definition deploymentOf (deploymentResource : DeploymentResource.t) : Deployment.t :=
  Deployment.mk (DeploymentResource.GetName deploymentResource)
    (DeploymentResource.GetNamespace deploymentResource)
    (DeploymentResource.GetReplicas deploymentResource).

Definition deploymentsOfLabel (env : Externals) (namespace : string) (label : Label.t)
    : list Deployment.t :=
  match GetTargetDeploymentsByNamespace env namespace label with
  | Ok deploymentResourceList =>
      map deploymentOf (DeploymentList.Items deploymentResourceList)
  | Err _ => []
  end.

Definition deploymentsOf (env : Externals) (labels : list Label.t) (namespace : string)
    : list Deployment.t :=
  flat_map (deploymentsOfLabel env namespace) labels.

(** The CSVs of the operator query; none when the query fails. *)
Definition csvResourcesOf (env : Externals) (namespace : string) : list CSVResource.t :=
  match GetCSVsByLabel env operatorLabelName (anyLabelValue env) namespace with
  | Ok csvs => CSVList.Items csvs
  | Err _ => []
  end.

(** The operators built before the first CSV whose subscription name is
    undefined. *)
Fixpoint builtOperators (env : Externals) (csvs : list CSVResource.t) : list Operator.t :=
  match csvs with
  | [] => []
  | csv :: rest =>
      match subscriptionNameOf env csv with
      | Some name => operatorWith env csv name :: builtOperators env rest
      | None => []
      end
  end.

(** Every CSV of the list has a subscription name that can be read. *)
Definition subscriptionsIndexable (env : Externals) (csvs : list CSVResource.t) : Prop :=
  Forall (fun csv => is_Some (subscriptionNameOf env csv)) csvs.

Definition excludedContainers (env : Externals) (namespace : string)
    : list ContainerIdentifier.t :=
  fst (getContainerIdentifiersByLabel env
         (Label.mk (tnfLabelPrefix env) skipConnectivityTestsLabel (anyLabelValue env))
         namespace).

(** The catalog after a complete run of [FindTestTarget] started on [t]. *)
Definition discovered (env : Externals) (labels : list Label.t) (namespace : string)
    (t : TestTarget.t) : TestTarget.t :=
  TestTarget.mk
    (TestTarget.PodsUnderTest t ++ map (podOf env) (podResourcesOf env labels namespace))
    (TestTarget.ContainerConfigList t
     ++ flat_map (buildContainersFromPodResource env) (podResourcesOf env labels namespace))
    (TestTarget.Operators t ++ builtOperators env (csvResourcesOf env namespace))
    (TestTarget.DeploymentsUnderTest t ++ deploymentsOf env labels namespace)
    (nodesOf env)
    (excludedContainers env namespace).

(** The catalog left behind when the operator loop panics: deployments and
    nodes are as they were in [t]. *)
Definition interrupted (env : Externals) (labels : list Label.t) (namespace : string)
    (t : TestTarget.t) : TestTarget.t :=
  TestTarget.mk
    (TestTarget.PodsUnderTest t ++ map (podOf env) (podResourcesOf env labels namespace))
    (TestTarget.ContainerConfigList t
     ++ flat_map (buildContainersFromPodResource env) (podResourcesOf env labels namespace))
    (TestTarget.Operators t ++ builtOperators env (csvResourcesOf env namespace))
    (TestTarget.DeploymentsUnderTest t)
    (TestTarget.Nodes t)
    (excludedContainers env namespace).

(** Two catalogs hold the same entities, whatever their order: the same
    multiset in every sequence and the same node map. *)
Definition catalogEquiv (t1 t2 : TestTarget.t) : Prop :=
  TestTarget.PodsUnderTest t1 ≡ₚ TestTarget.PodsUnderTest t2 /\
  TestTarget.ContainerConfigList t1 ≡ₚ TestTarget.ContainerConfigList t2 /\
  TestTarget.Operators t1 ≡ₚ TestTarget.Operators t2 /\
  TestTarget.DeploymentsUnderTest t1 ≡ₚ TestTarget.DeploymentsUnderTest t2 /\
  TestTarget.Nodes t1 = TestTarget.Nodes t2 /\
  TestTarget.ExcludeContainersFromConnectivityTests t1
  ≡ₚ TestTarget.ExcludeContainersFromConnectivityTests t2.

(** A CRD name ends with the suffix of one of the filters. *)
Definition matchesSomeFilter (crdFilters : list CrdFilter.t) (crdName : string) : bool :=
  existsb (fun crdFilter => HasSuffix crdName (CrdFilter.NameSuffix crdFilter)) crdFilters.

(** How a call of [FindTestCrdNames] ends. *)
Definition crdNamesOutcome (env : Externals) (crdFilters : list CrdFilter.t)
    : Outcome (list string) :=
  match runGenericCommand env (escapeQuotes ocGetClusterCrdNamesCommand) with
  | RunSucceeded [out] =>
      match jsonUnmarshal env out with
      | Ok clusterCrdNames => Done (List.filter (matchesSomeFilter crdFilters) clusterCrdNames)
      | Err _ => Done []
      end
  | _ => Panic "gomega: expectation failed"
  end.

(** Unfolds the monad operations met in a goal. *)
Ltac run :=
  unfold mbind, M_bind, mret, M_ret, log, panic, modifyTarget, index; simpl.


(** ** Reference notions for the remaining functions *)

(** The byte [c] does not occur in [s]. *)
Fixpoint freeOf (c : Ascii.ascii) (s : string) : bool :=
  match s with
  | EmptyString => true
  | String d rest => negb (Ascii.eqb d c) && freeOf c rest
  end.

(** The argument that [ArgListToMap] reads as the pair of [key] and [value]. *)
Definition keyValueArg (kv : string * string) : string :=
  kv.1 +:+ String equalsSign kv.2.

(** One iteration of the loop of [ArgListToMap], on a map already built. *)
Definition argStep (retval : gmap string string) (arg : string)
    : option (gmap string string) :=
  let splitArgs := Split arg equalsSign in
  if decide (length splitArgs = 1%nat)
  then key ← splitArgs !! 0%nat; Some (<[key := EmptyString]> retval)
  else key ← splitArgs !! 0%nat; value ← splitArgs !! 1%nat;
       Some (<[key := value]> retval).

(** Every double quote of [s] stands directly behind a backslash;
    [afterBackslash] tells whether the byte before [s] is one. *)
Fixpoint quotesEscaped (afterBackslash : bool) (s : string) : bool :=
  match s with
  | EmptyString => true
  | String c rest =>
      if Ascii.eqb c (Ascii.ascii_of_nat 34)
      then afterBackslash && quotesEscaped false rest
      else quotesEscaped (Ascii.eqb c (Ascii.ascii_of_nat 92)) rest
  end.

(** The error records [FindTestDeployments] writes: one for every label
    whose query fails, in label order. *)
Definition deploymentErrorsOf (env : Externals) (labels : list Label.t) (namespace : string)
    : list LogEntry :=
  flat_map (fun label =>
              match GetTargetDeploymentsByNamespace env namespace label with
              | Ok _ => []
              | Err err => [Error_deployment_list namespace err]
              end) labels.
(** * Properties *)

(** ** Running computations *)

Lemma bind_done {A B} (m : M A) (f : A -> M B) (s s' : St) (a : A) :
  m s = (Done a, s') -> (m ≫= f) s = f a s'.
Proof. intros H. unfold mbind, M_bind. now rewrite H. Qed.

Lemma bind_panic {A B} (m : M A) (f : A -> M B) (s s' : St) (msg : string) :
  m s = (Panic msg, s') -> (m ≫= f) s = (Panic msg, s').
Proof. intros H. unfold mbind, M_bind. now rewrite H. Qed.

Lemma mkSt_eta (s : St) : mkSt (target s) (logs s) = s.
Proof. now destruct s. Qed.

Lemma logs_app_nil (s : St) : mkSt (target s) (logs s ++ []) = s.
Proof. rewrite app_nil_r. apply mkSt_eta. Qed.

(** ** The builders *)

Lemma foldl_snoc_map {A B} (f : A -> B) (l : list A) (acc : list B) :
  foldl (fun acc x => acc ++ [f x]) acc l = acc ++ map f l.
Proof.
  revert acc. induction l as [|x l IH]; intros acc; simpl.
  - now rewrite app_nil_r.
  - rewrite IH, <- app_assoc. reflexivity.
Qed.

Lemma getConfiguredOperatorTests_run (env : Externals) (s : St) :
  exists l, getConfiguredOperatorTests env s
            = (Done (configuredOperatorTests env), mkSt (target s) (logs s ++ l)).
Proof.
  unfold getConfiguredOperatorTests, configuredOperatorTests.
  destruct (LoadConfiguredTestFile env) as [c|e]; run.
  - rewrite foldl_snoc_map. simpl. eauto.
  - eauto.
Qed.

(** [buildPodUnderTest] always returns, leaves the catalog alone and writes
    at most one warning. *)
Lemma buildPodUnderTest_run (env : Externals) (pr : PodResource.t) (s : St) :
  exists l, buildPodUnderTest env pr s = (Done (podOf env pr), mkSt (target s) (logs s ++ l)).
Proof.
  unfold buildPodUnderTest, podOf, podTestsOf.
  destruct (GetAnnotationValue env _ _) as [tests|err]; run.
  - exists []. now rewrite logs_app_nil.
  - eauto.
Qed.

(** C3. [buildPodUnderTest] never fails, and the [Tests] of the pod it
    returns are: the list of the [host_resource_tests] annotation, with
    nothing logged and the fallback not read, when the annotation resolves;
    the configured pod test groups, after one warning naming the pod and the
    error, when the resolution fails. *)
Theorem buildPodUnderTest_tests (env : Externals) (pr : PodResource.t) (s : St) :
  exists pod s',
    buildPodUnderTest env pr s = (Done pod, s') /\
    target s' = target s /\
    match GetAnnotationValue env (PodResource.Metadata pr) (podTestsAnnotationName env) with
    | Ok tests => Pod.Tests pod = tests /\ s' = s
    | Err err =>
        Pod.Tests pod = GetConfiguredPodTests env /\
        logs s' = logs s ++ [Warnf_pod_tests (Metadata.Namespace (PodResource.Metadata pr))
                               (Metadata.Name (PodResource.Metadata pr)) err]
    end.
Proof.
  unfold buildPodUnderTest.
  destruct (GetAnnotationValue env _ _) as [tests|err]; run.
  - eexists _, _. split; [reflexivity|]. auto.
  - eexists _, _. split; [reflexivity|]. simpl. auto.
Qed.

(** The pod of the specification's example: an annotation holding the JSON
    list of t1 and t2 gives exactly these two tests. *)
Lemma buildPodUnderTest_t1_t2 :
  let pr := Fixture.pod "p"
              {[ "test-network-function.com/host_resource_tests" := Fixture.jsonArray ["t1"; "t2"] ]} in
  let env := Fixture.cluster [pr] [] (Ok []) (Ok []) RunFailed in
  buildPodUnderTest env pr Fixture.s0
  = (Done (Pod.mk "p" "tnf" "default" 1 ["t1"; "t2"]), Fixture.s0).
Proof. vm_compute. reflexivity. Qed.

(** C4, as stated, fails: a pod whose annotation is the empty JSON list gets
    no tests although the configured fallback is not empty. *)
Lemma buildPodUnderTest_tests_empty_annotation :
  let pr := Fixture.pod "p" {[ "test-network-function.com/host_resource_tests" := "[]" ]} in
  let env := Fixture.cluster [pr] [] (Ok []) (Ok []) RunFailed in
  GetConfiguredPodTests env = ["generic"] /\
  buildPodUnderTest env pr Fixture.s0
  = (Done (Pod.mk "p" "tnf" "default" 1 []), Fixture.s0).
Proof. split; vm_compute; reflexivity. Qed.

(** C4, amended. The [Tests] of the pod returned by [buildPodUnderTest] are
    non-empty unless the configured fallback is empty or the annotation
    resolves to an empty list. *)
Theorem buildPodUnderTest_tests_nonempty (env : Externals) (pr : PodResource.t) (s : St) :
  GetConfiguredPodTests env <> [] ->
  GetAnnotationValue env (PodResource.Metadata pr) (podTestsAnnotationName env) <> Ok [] ->
  exists pod s', buildPodUnderTest env pr s = (Done pod, s') /\ Pod.Tests pod <> [].
Proof.
  intros Hfallback Hannotation.
  destruct (buildPodUnderTest_run env pr s) as [l Hrun].
  eexists _, _. split; [exact Hrun|].
  simpl. unfold podTestsOf.
  destruct (GetAnnotationValue env _ _) as [tests|err]; congruence.
Qed.

Lemma buildPodUnderTest_tests_nonempty_witness :
  let env := Fixture.cluster [] [] (Ok []) (Ok []) RunFailed in
  let pr := Fixture.pod "p" ∅ in
  GetConfiguredPodTests env <> [] /\
  GetAnnotationValue env (PodResource.Metadata pr) (podTestsAnnotationName env) <> Ok [] /\
  exists pod s', buildPodUnderTest env pr Fixture.s0 = (Done pod, s') /\ Pod.Tests pod <> [].
Proof.
  intros env pr.
  assert (Hfallback : GetConfiguredPodTests env <> []) by (vm_compute; discriminate).
  assert (Hannotation :
    GetAnnotationValue env (PodResource.Metadata pr) (podTestsAnnotationName env) <> Ok [])
    by (vm_compute; discriminate).
  split; [exact Hfallback|]. split; [exact Hannotation|].
  exact (buildPodUnderTest_tests_nonempty env pr Fixture.s0 Hfallback Hannotation).
Defined.

(** The first half of [buildOperatorFromCSVResource]: the tests of the
    operator. It always returns. *)
Lemma operatorTests_run (env : Externals) (csv : CSVResource.t) (s : St) :
  exists l,
    match GetAnnotationValue env (CSVResource.Metadata csv) (operatorTestsAnnotationName env) with
    | Err err =>
        log (Warnf_operator_tests (Metadata.Namespace (CSVResource.Metadata csv))
               (Metadata.Name (CSVResource.Metadata csv)) err) ;;
        getConfiguredOperatorTests env
    | Ok tests => mret tests
    end s = (Done (operatorTestsOf env csv), mkSt (target s) (logs s ++ l)).
Proof.
  unfold operatorTestsOf.
  destruct (GetAnnotationValue env _ _) as [tests|err].
  - exists []. run. now rewrite logs_app_nil.
  - run.
    match goal with
    | |- context [getConfiguredOperatorTests env ?s1] =>
        destruct (getConfiguredOperatorTests_run env s1) as [l Hl]; rewrite Hl
    end.
    simpl. rewrite <- app_assoc. eauto.
Qed.

(** [buildOperatorFromCSVResource] returns the operator when the
    subscription name is defined and panics otherwise; the catalog is not
    touched either way. *)
Lemma buildOperatorFromCSVResource_run (env : Externals) (csv : CSVResource.t) (s : St) :
  exists l,
    buildOperatorFromCSVResource env csv s
    = (match subscriptionNameOf env csv with
       | Some name => Done (operatorWith env csv name)
       | None => Panic "runtime error: index out of range"
       end, mkSt (target s) (logs s ++ l)).
Proof.
  unfold buildOperatorFromCSVResource, subscriptionNameOf, operatorWith.
  destruct (operatorTests_run env csv s) as [l1 H1].
  rewrite (bind_done _ _ _ _ _ H1).
  destruct (GetAnnotationValue env _ (subscriptionNameAnnotationName env))
    as [[|first rest]|err]; run.
  - eauto.
  - eauto.
  - rewrite <- app_assoc. eauto.
Qed.

(** C10. When the [subscription_name] annotation resolves to a list,
    [buildOperatorFromCSVResource] takes its element at index 0 without a
    length check: the call returns exactly when the list is not empty, the
    subscription name is then the first element, and on the empty list the
    index is out of range and the call panics. *)
Theorem buildOperator_subscription_index
    (env : Externals) (csv : CSVResource.t) (s : St) (subscriptionName : list string) :
  GetAnnotationValue env (CSVResource.Metadata csv) (subscriptionNameAnnotationName env)
  = Ok subscriptionName ->
  (subscriptionName <> [] <->
   exists op s', buildOperatorFromCSVResource env csv s = (Done op, s')) /\
  (forall op s', buildOperatorFromCSVResource env csv s = (Done op, s') ->
     subscriptionName !! 0%nat = Some (Operator.SubscriptionName op)) /\
  (subscriptionName = [] ->
   exists s', buildOperatorFromCSVResource env csv s
              = (Panic "runtime error: index out of range", s') /\
              target s' = target s).
Proof.
  intros Hsub.
  destruct (buildOperatorFromCSVResource_run env csv s) as [l Hrun].
  unfold subscriptionNameOf in Hrun. rewrite Hsub in Hrun.
  destruct subscriptionName as [|first rest]; simpl in Hrun; rewrite Hrun.
  - split; [|split].
    + split; [congruence|]. intros (op & s' & H). discriminate.
    + intros op s' H. discriminate.
    + intros _. eauto.
  - split; [|split].
    + split; [eauto|discriminate].
    + intros op s' H. injection H as <- _. reflexivity.
    + discriminate.
Qed.

Lemma buildOperator_subscription_index_witness :
  let csv := Fixture.csv "etcd" {[ "test-network-function.com/subscription_name" := "[]" ]} in
  let env := Fixture.cluster [] [csv] (Ok []) (Ok []) RunFailed in
  GetAnnotationValue env (CSVResource.Metadata csv) (subscriptionNameAnnotationName env)
  = Ok [] /\
  exists s', buildOperatorFromCSVResource env csv Fixture.s0
             = (Panic "runtime error: index out of range", s') /\
             target s' = target Fixture.s0.
Proof.
  intros csv env.
  assert (Hsub :
    GetAnnotationValue env (CSVResource.Metadata csv) (subscriptionNameAnnotationName env)
    = Ok []) by (vm_compute; reflexivity).
  split; [exact Hsub|].
  exact (proj2 (proj2 (buildOperator_subscription_index env csv Fixture.s0 [] Hsub)) eq_refl).
Defined.

(** ** The node map *)

Lemma addMasterNodes_lookup (env : Externals) (names : list string)
    (nodes : gmap string Node.t) (name : string) :
  addMasterNodes env nodes names !! name
  = if decide (name ∈ names) then Some (Node.mk name [MasterLabel env]) else nodes !! name.
Proof.
  unfold addMasterNodes. revert nodes.
  induction names as [|x names IH]; intros nodes; cbn [foldl].
  - rewrite decide_False by apply not_elem_of_nil. reflexivity.
  - rewrite IH. destruct (decide (name ∈ names)) as [Hin|Hnin].
    + rewrite decide_True by (now right). reflexivity.
    + destruct (decide (x = name)) as [->|Hne].
      * rewrite decide_True by left. now rewrite lookup_insert_eq.
      * rewrite decide_False.
        -- now rewrite lookup_insert_ne.
        -- intros [->|Hin]%elem_of_cons; [|contradiction]. congruence.
Qed.

(** After the worker loop a name carries one worker label for each of its
    occurrences in the worker list, behind the labels it had before. *)
Lemma addWorkerNodes_lookup (env : Externals) (names : list string)
    (nodes : gmap string Node.t) (name : string) :
  addWorkerNodes env nodes names !! name
  = match nodes !! name, count_occ String.string_dec names name with
    | None, O => None
    | None, k => Some (Node.mk name (replicate k (WorkerLabel env)))
    | Some node, k =>
        Some (Node.mk (Node.Name node) (Node.Labels node ++ replicate k (WorkerLabel env)))
    end.
Proof.
  unfold addWorkerNodes. revert nodes.
  induction names as [|x names IH]; intros nodes.
  - simpl. destruct (nodes !! name) as [[n ls]|]; [|reflexivity].
    simpl. now rewrite app_nil_r.
  - cbn [foldl]. rewrite IH. destruct (String.string_dec x name) as [->|Hne].
    + rewrite count_occ_cons_eq by reflexivity.
      destruct (nodes !! name) as [node|] eqn:Hname.
      * rewrite lookup_insert_eq. simpl. now rewrite <- app_assoc.
      * rewrite lookup_insert_eq. reflexivity.
    + rewrite count_occ_cons_neq by exact Hne.
      destruct (nodes !! x) as [node|]; now rewrite lookup_insert_ne.
Qed.

Lemma count_occ_elem_of (names : list string) (name : string) :
  name ∈ names <-> (0 < count_occ String.string_dec names name)%nat.
Proof. rewrite list_elem_of_In. apply count_occ_In. Qed.

Lemma elem_of_replicate_succ (k : nat) (x r : string) :
  r ∈ replicate (S k) x <-> r = x.
Proof.
  rewrite elem_of_replicate. split; [tauto|]. intros ->. split; [reflexivity|lia].
Qed.

Lemma GetNodesList_run (env : Externals) (s : St) :
  exists l, GetNodesList env s = (Done (nodesOf env), mkSt (target s) (logs s ++ l)).
Proof.
  unfold GetNodesList, nodesOf.
  destruct (runNodeNames env (MasterLabel env)) as [masters|err]; [|run; eauto].
  destruct (runNodeNames env (WorkerLabel env)) as [workers|err]; run; [|eauto].
  exists []. now rewrite logs_app_nil.
Qed.

(** C1. When the master query fails, [GetNodesList] logs the error and
    returns at once: the map is empty whatever the worker query would
    answer, so no worker node is in it. *)
Theorem GetNodesList_master_failure (env : Externals) (s : St) (err : error) :
  runNodeNames env (MasterLabel env) = Err err ->
  GetNodesList env s = (Done ∅, mkSt (target s) (logs s ++ [Error_node_list err])).
Proof.
  intros Hmaster. unfold GetNodesList. rewrite Hmaster. run. reflexivity.
Qed.

Lemma GetNodesList_master_failure_witness :
  let env := Fixture.cluster [] [] (Err (QueryFailure "timeout")) (Ok ["worker-0"]) RunFailed in
  runNodeNames env (MasterLabel env) = Err (QueryFailure "timeout") /\
  runNodeNames env (WorkerLabel env) = Ok ["worker-0"] /\
  GetNodesList env Fixture.s0
  = (Done ∅, mkSt TestTarget.empty [Error_node_list (QueryFailure "timeout")]).
Proof.
  intros env.
  assert (Hmaster : runNodeNames env (MasterLabel env) = Err (QueryFailure "timeout"))
    by (vm_compute; reflexivity).
  split; [exact Hmaster|]. split; [vm_compute; reflexivity|].
  exact (GetNodesList_master_failure env Fixture.s0 _ Hmaster).
Defined.

(** C5. When both role queries succeed, [GetNodesList] returns a map in
    which a name of the master list alone has the entry with the master
    label, a name of the worker list alone has an entry whose only role is
    worker, a name of both lists has one entry with both roles, and a name of
    neither list has no entry. Nothing is logged. *)
Theorem GetNodesList_merge (env : Externals) (s : St) (masters workers : list string) :
  runNodeNames env (MasterLabel env) = Ok masters ->
  runNodeNames env (WorkerLabel env) = Ok workers ->
  exists nodes,
    GetNodesList env s = (Done nodes, s) /\
    forall name,
      (name ∈ masters -> name ∉ workers ->
       nodes !! name = Some (Node.mk name [MasterLabel env])) /\
      (name ∉ masters -> name ∈ workers ->
       exists node, nodes !! name = Some node /\ Node.Name node = name /\
                    hasRoles node [WorkerLabel env]) /\
      (name ∈ masters -> name ∈ workers ->
       exists node, nodes !! name = Some node /\ Node.Name node = name /\
                    hasRoles node [MasterLabel env; WorkerLabel env]) /\
      (name ∉ masters -> name ∉ workers -> nodes !! name = None).
Proof.
  intros Hmaster Hworker.
  exists (addWorkerNodes env (addMasterNodes env ∅ masters) workers). split.
  { unfold GetNodesList. rewrite Hmaster, Hworker. run. reflexivity. }
  intros name.
  rewrite addWorkerNodes_lookup, addMasterNodes_lookup, lookup_empty.
  pose proof (count_occ_elem_of workers name) as Hcount.
  destruct (count_occ String.string_dec workers name) as [|k] eqn:Hk.
  - assert (Hnot : name ∉ workers) by (rewrite Hcount; lia).
    repeat split; intros H1 H2; try contradiction.
    + rewrite decide_True by exact H1. reflexivity.
    + rewrite decide_False by exact H1. reflexivity.
  - assert (Hin : name ∈ workers) by (rewrite Hcount; lia).
    repeat split; intros H1 H2; try contradiction.
    + rewrite decide_False by exact H1.
      eexists. split; [reflexivity|]. split; [reflexivity|].
      intros r. cbn [Node.Labels]. rewrite elem_of_replicate_succ, list_elem_of_singleton.
      reflexivity.
    + rewrite decide_True by exact H1.
      eexists. split; [reflexivity|]. split; [reflexivity|].
      intros r. cbn [Node.Labels].
      rewrite elem_of_app, elem_of_replicate_succ, !elem_of_cons, elem_of_nil.
      tauto.
Qed.

Lemma GetNodesList_merge_witness :
  let env := Fixture.cluster [] [] (Ok ["node-a"; "node-b"]) (Ok ["node-b"]) RunFailed in
  runNodeNames env (MasterLabel env) = Ok ["node-a"; "node-b"] /\
  runNodeNames env (WorkerLabel env) = Ok ["node-b"] /\
  exists nodes,
    GetNodesList env Fixture.s0 = (Done nodes, Fixture.s0) /\
    nodes !! "node-a" = Some (Node.mk "node-a" [MasterLabel env]) /\
    (exists node, nodes !! "node-b" = Some node /\ Node.Name node = "node-b" /\
                  hasRoles node [MasterLabel env; WorkerLabel env]) /\
    nodes !! "node-c" = None.
Proof.
  intros env.
  assert (Hmaster : runNodeNames env (MasterLabel env) = Ok ["node-a"; "node-b"])
    by (vm_compute; reflexivity).
  assert (Hworker : runNodeNames env (WorkerLabel env) = Ok ["node-b"])
    by (vm_compute; reflexivity).
  split; [exact Hmaster|]. split; [exact Hworker|].
  destruct (GetNodesList_merge env Fixture.s0 _ _ Hmaster Hworker) as (nodes & Hrun & Hnodes).
  exists nodes. split; [exact Hrun|].
  split; [|split].
  - apply (Hnodes "node-a"); [rewrite !elem_of_cons; auto|].
    rewrite !elem_of_cons, elem_of_nil. intros [H|[]]. discriminate.
  - apply (Hnodes "node-b"); rewrite !elem_of_cons; auto.
  - apply (Hnodes "node-c"); rewrite !elem_of_cons, elem_of_nil; intros H;
      repeat destruct H as [H|H]; try discriminate; exact H.
Defined.

(** The node example of the specification, evaluated. *)
Lemma GetNodesList_node_a_node_b :
  let env := Fixture.cluster [] [] (Ok ["node-a"; "node-b"]) (Ok ["node-b"]) RunFailed in
  GetNodesList env Fixture.s0
  = (Done (<["node-b" := Node.mk "node-b" [MasterLabel env; WorkerLabel env]]>
             {[ "node-a" := Node.mk "node-a" [MasterLabel env] ]}),
     Fixture.s0).
Proof. vm_compute. reflexivity. Qed.

(** When the worker query lists no name twice, the label lists are exact. *)
Lemma GetNodesList_merge_exact (env : Externals) (masters workers : list string)
    (name : string) :
  runNodeNames env (MasterLabel env) = Ok masters ->
  runNodeNames env (WorkerLabel env) = Ok workers ->
  NoDup workers ->
  nodesOf env !! name
  = match decide (name ∈ masters), decide (name ∈ workers) with
    | left _, left _ => Some (Node.mk name [MasterLabel env; WorkerLabel env])
    | left _, right _ => Some (Node.mk name [MasterLabel env])
    | right _, left _ => Some (Node.mk name [WorkerLabel env])
    | right _, right _ => None
    end.
Proof.
  intros Hmaster Hworker Hnodup. unfold nodesOf. rewrite Hmaster, Hworker.
  rewrite addWorkerNodes_lookup, addMasterNodes_lookup, lookup_empty.
  pose proof (count_occ_elem_of workers name) as Hcount.
  assert (Hle : (count_occ String.string_dec workers name <= 1)%nat).
  { apply (proj1 (NoDup_count_occ String.string_dec workers)).
    now apply NoDup_ListNoDup. }
  destruct (count_occ String.string_dec workers name) as [|[|k]] eqn:Hk; [| |lia].
  - destruct (decide (name ∈ workers)) as [Hin|_]; [apply Hcount in Hin; lia|].
    now destruct (decide (name ∈ masters)).
  - destruct (decide (name ∈ workers)) as [_|Hnin]; [|exfalso; apply Hnin, Hcount; lia].
    now destruct (decide (name ∈ masters)).
Qed.

(** ** Loops *)

(** A loop whose body always returns and changes the catalog by [step]. *)
Lemma forRange_run {A} (body : A -> M unit) (step : A -> TestTarget.t -> TestTarget.t)
    (l : list A) :
  (forall x s, exists lg, body x s = (Done tt, mkSt (step x (target s)) (logs s ++ lg))) ->
  forall s, exists lg,
    forRange l body s
    = (Done tt, mkSt (foldl (fun t x => step x t) (target s) l) (logs s ++ lg)).
Proof.
  intros Hbody. induction l as [|x l IH]; intros s; simpl.
  - exists []. run. now rewrite logs_app_nil.
  - destruct (Hbody x s) as [lg1 H1]. rewrite (bind_done _ _ _ _ _ H1).
    destruct (IH (mkSt (step x (target s)) (logs s ++ lg1))) as [lg2 H2].
    rewrite H2. simpl. rewrite <- app_assoc. eauto.
Qed.

Lemma foldl_flat_map {A B C} (f : C -> B -> C) (g : A -> list B) (l : list A) (c : C) :
  foldl f c (flat_map g l) = foldl (fun c x => foldl f c (g x)) c l.
Proof.
  revert c. induction l as [|x l IH]; intros c; simpl; [reflexivity|].
  now rewrite foldl_app, IH.
Qed.

Lemma addPod_foldl (env : Externals) (prs : list PodResource.t) (t : TestTarget.t) :
  foldl (fun t pr => addPod env pr t) t prs
  = TestTarget.setContainerConfigList
      (TestTarget.ContainerConfigList t ++ flat_map (buildContainersFromPodResource env) prs)
      (TestTarget.setPodsUnderTest (TestTarget.PodsUnderTest t ++ map (podOf env) prs) t).
Proof.
  revert t. induction prs as [|pr prs IH]; intros t.
  - destruct t. unfold TestTarget.setContainerConfigList, TestTarget.setPodsUnderTest.
    simpl. now rewrite !app_nil_r.
  - cbn [foldl]. rewrite IH. destruct t.
    unfold addPod, TestTarget.setContainerConfigList, TestTarget.setPodsUnderTest. simpl.
    now rewrite <- !app_assoc.
Qed.

(** The pod loops of [FindTestTarget] append, label by label, the pod and
    the container configurations of every pod resource found. *)
Lemma pods_loop_run (env : Externals) (labels : list Label.t) (namespace : string) (s : St) :
  exists lg,
    forRange labels (fun l =>
      match GetPodsByLabel env l namespace with
      | Ok pods =>
          forRange (PodList.Items pods) (fun pr =>
            pod ← buildPodUnderTest env pr;
            modifyTarget (fun t =>
              TestTarget.setPodsUnderTest (TestTarget.PodsUnderTest t ++ [pod]) t) ;;
            modifyTarget (fun t =>
              TestTarget.setContainerConfigList
                (TestTarget.ContainerConfigList t ++ buildContainersFromPodResource env pr) t))
      | Err err => log (Warnf_query_by_label l err)
      end) s
    = (Done tt,
       mkSt (foldl (fun t pr => addPod env pr t) (target s)
               (podResourcesOf env labels namespace))
         (logs s ++ lg)).
Proof.
  unfold podResourcesOf. rewrite foldl_flat_map.
  apply (forRange_run _
           (fun l t => foldl (fun t pr => addPod env pr t) t (podResourcesOfLabel env namespace l))).
  clear s. intros l s. unfold podResourcesOfLabel.
  destruct (GetPodsByLabel env l namespace) as [pods|err].
  - apply (forRange_run _ (addPod env)).
    clear s. intros pr s.
    destruct (buildPodUnderTest_run env pr s) as [lg Hrun].
    rewrite (bind_done _ _ _ _ _ Hrun). run. eauto.
  - run. eauto.
Qed.

Lemma FindTestDeployments_run (env : Externals) (labels : list Label.t)
    (namespace : string) (s : St) :
  exists lg,
    FindTestDeployments env labels namespace s
    = (Done (deploymentsOf env labels namespace), mkSt (target s) (logs s ++ lg)).
Proof.
  unfold FindTestDeployments.
  match goal with
  | |- context [foldRange labels [] ?body] =>
      assert (Hloop : forall acc s, exists lg,
                foldRange labels acc body s
                = (Done (acc ++ deploymentsOf env labels namespace),
                   mkSt (target s) (logs s ++ lg)))
  end.
  { unfold deploymentsOf. clear s.
    induction labels as [|label labels IH]; intros acc s; cbn [foldRange flat_map].
    - exists []. run. now rewrite app_nil_r, logs_app_nil.
    - unfold deploymentsOfLabel at 1.
      destruct (GetTargetDeploymentsByNamespace env namespace label) as [lst|err].
      + erewrite bind_done by reflexivity.
        pose proof (foldl_snoc_map deploymentOf (DeploymentList.Items lst) acc) as Hfold.
        unfold deploymentOf in Hfold at 1. rewrite Hfold.
        destruct (IH (acc ++ map deploymentOf (DeploymentList.Items lst)) s) as [lg Hrun].
        rewrite Hrun, <- app_assoc. eauto.
      + erewrite bind_done by reflexivity.
        destruct (IH acc (mkSt (target s) (logs s ++ [Error_deployment_list namespace err])))
          as [lg Hrun].
        rewrite Hrun. simpl. rewrite <- app_assoc. eauto. }
  exact (Hloop [] s).
Qed.

Lemma setOperators_app_nil (t : TestTarget.t) :
  TestTarget.setOperators (TestTarget.Operators t ++ []) t = t.
Proof. destruct t. unfold TestTarget.setOperators. simpl. now rewrite app_nil_r. Qed.

(** The operator loop of [FindTestTarget]: it appends the operators built
    up to the first CSV whose subscription name cannot be read, and panics
    at that CSV. *)
Lemma operators_loop_run (env : Externals) (csvs : list CSVResource.t) (s : St) :
  exists lg,
    forRange csvs (fun csv =>
      op ← buildOperatorFromCSVResource env csv;
      modifyTarget (fun t => TestTarget.setOperators (TestTarget.Operators t ++ [op]) t)) s
    = (if decide (subscriptionsIndexable env csvs) then Done tt
       else Panic "runtime error: index out of range",
       mkSt (TestTarget.setOperators
               (TestTarget.Operators (target s) ++ builtOperators env csvs) (target s))
         (logs s ++ lg)).
Proof.
  unfold subscriptionsIndexable.
  match goal with
  | |- context [forRange csvs ?body] =>
      assert (Hbody : forall csv s, exists lg,
                body csv s
                = match subscriptionNameOf env csv with
                  | Some name =>
                      (Done tt,
                       mkSt (TestTarget.setOperators
                               (TestTarget.Operators (target s) ++ [operatorWith env csv name])
                               (target s))
                         (logs s ++ lg))
                  | None =>
                      (Panic "runtime error: index out of range",
                       mkSt (target s) (logs s ++ lg))
                  end)
  end.
  { clear s. intros csv s. cbv beta.
    destruct (buildOperatorFromCSVResource_run env csv s) as [lg1 H1].
    destruct (subscriptionNameOf env csv) as [name|].
    - rewrite (bind_done _ _ _ _ _ H1). run. eauto.
    - rewrite (bind_panic _ _ _ _ _ H1). eauto. }
  revert s.
  induction csvs as [|csv csvs IH]; intros s; cbn [forRange builtOperators].
  - exists []. rewrite decide_True by constructor. run.
    now rewrite setOperators_app_nil, logs_app_nil.
  - destruct (Hbody csv s) as [lg1 H1].
    destruct (subscriptionNameOf env csv) as [name|] eqn:Hname.
    + rewrite (bind_done _ _ _ _ _ H1).
      match goal with
      | |- context [forRange csvs _ ?s1] => destruct (IH s1) as [lg2 H2]
      end.
      rewrite H2. cbn [target logs].
      exists (lg1 ++ lg2). f_equal.
      * destruct (decide (Forall _ csvs)) as [Hall|Hnot].
        -- rewrite decide_True; [reflexivity|]. constructor; [|exact Hall].
           rewrite Hname. eauto.
        -- rewrite decide_False; [reflexivity|]. intros Hall. apply Hnot.
           now inversion Hall.
      * f_equal; [|now rewrite <- app_assoc].
        destruct (target s). unfold TestTarget.setOperators. simpl.
        now rewrite <- app_assoc.
    + rewrite (bind_panic _ _ _ _ _ H1).
      exists lg1. rewrite decide_False, setOperators_app_nil; [reflexivity|].
      intros Hall. inversion Hall as [|? ? [name Hsome] ?]. congruence.
Qed.

(** ** [FindTestTarget] *)

(** What a call of [FindTestTarget] does. It returns exactly when every CSV
    of the operator query has a subscription name that can be read, and the
    catalog is then [discovered]; otherwise it panics in the operator loop
    and leaves the catalog [interrupted]. *)
Lemma FindTestTarget_run (env : Externals) (labels : list Label.t) (namespace : string)
    (s : St) :
  exists lg,
    FindTestTarget env labels namespace s
    = if decide (subscriptionsIndexable env (csvResourcesOf env namespace))
      then (Done tt, mkSt (discovered env labels namespace (target s)) (logs s ++ lg))
      else (Panic "runtime error: index out of range",
            mkSt (interrupted env labels namespace (target s)) (logs s ++ lg)).
Proof.
  unfold FindTestTarget, discovered, interrupted, excludedContainers.
  destruct (pods_loop_run env labels namespace s) as [lg1 H1].
  rewrite (bind_done _ _ _ _ _ H1), addPod_foldl. clear H1.
  destruct (getContainerIdentifiersByLabel env _ namespace) as [identifiers err].
  erewrite bind_done by reflexivity.
  assert (Herr : exists lg2, forall s2,
            match err with
            | Some err => log (Warnf_exclude_containers err)
            | None => mret tt
            end s2 = (Done tt, mkSt (target s2) (logs s2 ++ lg2))).
  { destruct err as [e|].
    - exists [Warnf_exclude_containers e]. reflexivity.
    - exists []. intros s2. run. now rewrite logs_app_nil. }
  destruct Herr as [lg2 H2]. rewrite (bind_done _ _ _ _ _ (H2 _)). clear H2.
  cbn [target logs fst].
  unfold csvResourcesOf.
  destruct (GetCSVsByLabel env operatorLabelName (anyLabelValue env) namespace) as [csvs|e].
  - match goal with
    | |- exists lg, (forRange _ _ ≫= _) ?s3 = _ =>
        destruct (operators_loop_run env (CSVList.Items csvs) s3) as [lg3 H3]
    end.
    destruct (decide (subscriptionsIndexable env (CSVList.Items csvs))) as [Hall|Hnot].
    + rewrite (bind_done _ _ _ _ _ H3). clear H3.
      match goal with
      | |- exists lg, (FindTestDeployments env labels namespace ≫= _) ?s4 = _ =>
          destruct (FindTestDeployments_run env labels namespace s4) as [lg4 H4]
      end.
      rewrite (bind_done _ _ _ _ _ H4). clear H4.
      erewrite bind_done by reflexivity.
      match goal with
      | |- exists lg, (GetNodesList env ≫= _) ?s5 = _ =>
          destruct (GetNodesList_run env s5) as [lg5 H5]
      end.
      rewrite (bind_done _ _ _ _ _ H5). clear H5.
      exists (lg1 ++ lg2 ++ lg3 ++ lg4 ++ lg5).
      unfold modifyTarget. cbn [target logs]. destruct s as [[] lgs]. cbn.
      now rewrite <- !app_assoc.
    + rewrite (bind_panic _ _ _ _ _ H3). clear H3.
      exists (lg1 ++ lg2 ++ lg3). destruct s as [[] lgs]. cbn.
      now rewrite <- !app_assoc.
  - destruct (decide (subscriptionsIndexable env [])) as [_|Hnot];
      [|exfalso; apply Hnot; constructor].
    erewrite bind_done by reflexivity.
    match goal with
    | |- exists lg, (FindTestDeployments env labels namespace ≫= _) ?s4 = _ =>
        destruct (FindTestDeployments_run env labels namespace s4) as [lg4 H4]
    end.
    rewrite (bind_done _ _ _ _ _ H4). clear H4.
    erewrite bind_done by reflexivity.
    match goal with
    | |- exists lg, (GetNodesList env ≫= _) ?s5 = _ =>
        destruct (GetNodesList_run env s5) as [lg5 H5]
    end.
    rewrite (bind_done _ _ _ _ _ H5). clear H5.
    exists (lg1 ++ lg2 ++ [Warnf_operators_by_label e] ++ lg4 ++ lg5).
    unfold modifyTarget. cbn [target logs]. destruct s as [[] lgs]. cbn.
    now rewrite <- !app_assoc, ?app_nil_r.
Qed.

Lemma FindTestTarget_completes (env : Externals) (labels : list Label.t)
    (namespace : string) (s : St) :
  subscriptionsIndexable env (csvResourcesOf env namespace) ->
  exists lg,
    FindTestTarget env labels namespace s
    = (Done tt, mkSt (discovered env labels namespace (target s)) (logs s ++ lg)).
Proof.
  intros Hall. destruct (FindTestTarget_run env labels namespace s) as [lg Hrun].
  rewrite decide_True in Hrun by exact Hall. eauto.
Qed.

Lemma FindTestTarget_done_inv (env : Externals) (labels : list Label.t)
    (namespace : string) (s s' : St) :
  FindTestTarget env labels namespace s = (Done tt, s') ->
  subscriptionsIndexable env (csvResourcesOf env namespace) /\
  target s' = discovered env labels namespace (target s).
Proof.
  intros Hdone. destruct (FindTestTarget_run env labels namespace s) as [lg Hrun].
  rewrite Hdone in Hrun.
  destruct (decide (subscriptionsIndexable env (csvResourcesOf env namespace))) as [Hall|_];
    [|discriminate].
  split; [exact Hall|]. now injection Hrun as ->.
Qed.

Lemma builtOperators_elem_of (env : Externals) (csvs : list CSVResource.t)
    (csv : CSVResource.t) (name : string) :
  subscriptionsIndexable env csvs ->
  csv ∈ csvs ->
  subscriptionNameOf env csv = Some name ->
  operatorWith env csv name ∈ builtOperators env csvs.
Proof.
  unfold subscriptionsIndexable. intros Hall Hin Hname.
  induction csvs as [|c csvs IH]; [now apply elem_of_nil in Hin|].
  inversion Hall as [|? ? [n Hn] Hall']; subst. simpl. rewrite Hn.
  apply elem_of_cons in Hin as [->|Hin].
  - rewrite Hname in Hn. injection Hn as ->. left.
  - right. auto.
Qed.

(** C2. A CSV of the operator query whose [subscription_name] annotation
    resolves to the empty list makes [FindTestTarget] panic in the operator
    loop: the call does not return, and the deployments and the nodes of the
    catalog are never written. *)
Theorem FindTestTarget_panics_on_empty_subscription
    (env : Externals) (labels : list Label.t) (namespace : string) (s : St)
    (csv : CSVResource.t) :
  csv ∈ csvResourcesOf env namespace ->
  GetAnnotationValue env (CSVResource.Metadata csv) (subscriptionNameAnnotationName env)
  = Ok [] ->
  exists s',
    FindTestTarget env labels namespace s
    = (Panic "runtime error: index out of range", s') /\
    TestTarget.DeploymentsUnderTest (target s') = TestTarget.DeploymentsUnderTest (target s) /\
    TestTarget.Nodes (target s') = TestTarget.Nodes (target s).
Proof.
  intros Hin Hsub. destruct (FindTestTarget_run env labels namespace s) as [lg Hrun].
  rewrite decide_False in Hrun.
  - eexists. split; [exact Hrun|]. split; reflexivity.
  - unfold subscriptionsIndexable. rewrite Forall_forall. intros Hall.
    destruct (Hall csv Hin) as [name Hname].
    unfold subscriptionNameOf in Hname. rewrite Hsub in Hname. discriminate.
Qed.

Lemma FindTestTarget_panics_on_empty_subscription_witness :
  let csv := Fixture.csv "etcd" {[ "test-network-function.com/subscription_name" := "[]" ]} in
  let env := Fixture.cluster [Fixture.pod "p" ∅] [csv] (Ok ["node-a"]) (Ok ["node-b"]) RunFailed in
  csv ∈ csvResourcesOf env Fixture.ns /\
  GetAnnotationValue env (CSVResource.Metadata csv) (subscriptionNameAnnotationName env)
  = Ok [] /\
  exists s',
    FindTestTarget env [Fixture.targetLabel] Fixture.ns Fixture.s0
    = (Panic "runtime error: index out of range", s') /\
    TestTarget.DeploymentsUnderTest (target s') = [] /\
    TestTarget.Nodes (target s') = ∅.
Proof.
  intros csv env.
  assert (Hin : csv ∈ csvResourcesOf env Fixture.ns) by (cbn; left).
  assert (Hsub :
    GetAnnotationValue env (CSVResource.Metadata csv) (subscriptionNameAnnotationName env)
    = Ok []) by (vm_compute; reflexivity).
  split; [exact Hin|]. split; [exact Hsub|].
  exact (FindTestTarget_panics_on_empty_subscription
           env [Fixture.targetLabel] Fixture.ns Fixture.s0 csv Hin Hsub).
Defined.

(** The same run, evaluated: the pod and its container are in the catalog,
    the operator, the deployment and the nodes are not. *)
Lemma FindTestTarget_interrupted_run :
  let csv := Fixture.csv "etcd" {[ "test-network-function.com/subscription_name" := "[]" ]} in
  let env := Fixture.cluster [Fixture.pod "p" ∅] [csv] (Ok ["node-a"]) (Ok ["node-b"]) RunFailed in
  FindTestTarget env [Fixture.targetLabel] Fixture.ns Fixture.s0
  = (Panic "runtime error: index out of range",
     mkSt (TestTarget.mk
             [Pod.mk "p" "tnf" "default" 1 ["generic"]]
             [ContainerConfig.mk (ContainerIdentifier.mk "tnf" "p" "main")]
             [] [] ∅ [])
       [Warnf_pod_tests "tnf" "p"
          (AnnotationMissing "test-network-function.com/host_resource_tests");
        Warnf_operator_tests "tnf" "etcd"
          (AnnotationMissing "test-network-function.com/operator_tests");
        Infof_op_tests ["operator-status"]]).
Proof. vm_compute. reflexivity. Qed.

(** C8. When the [subscription_name] annotation of a CSV does not resolve,
    [buildOperatorFromCSVResource] still returns the operator of that CSV:
    its [SubscriptionName] is the empty string, the catalog is untouched and
    the last log record is the warning about the annotation. The operator is
    kept: in the catalog of every call of [FindTestTarget] that returns and
    whose operator query lists the CSV, it is among the operators. *)
Theorem buildOperator_without_subscription
    (env : Externals) (csv : CSVResource.t) (s : St) (err : error) :
  GetAnnotationValue env (CSVResource.Metadata csv) (subscriptionNameAnnotationName env)
  = Err err ->
  (exists op l,
     buildOperatorFromCSVResource env csv s
     = (Done op,
        mkSt (target s)
          (logs s ++ l ++ [Warnf_subscription_name (Metadata.Name (CSVResource.Metadata csv)) err])) /\
     Operator.SubscriptionName op = EmptyString /\
     Operator.Name op = Metadata.Name (CSVResource.Metadata csv) /\
     Operator.Namespace op = Metadata.Namespace (CSVResource.Metadata csv) /\
     Operator.Tests op = operatorTestsOf env csv) /\
  (forall labels namespace s',
     csv ∈ csvResourcesOf env namespace ->
     FindTestTarget env labels namespace s = (Done tt, s') ->
     operatorWith env csv EmptyString ∈ TestTarget.Operators (target s')).
Proof.
  intros Hsub. split.
  - unfold buildOperatorFromCSVResource.
    destruct (operatorTests_run env csv s) as [l1 H1].
    rewrite (bind_done _ _ _ _ _ H1), Hsub. run.
    eexists _, l1. rewrite <- app_assoc. split; [reflexivity|]. simpl. auto.
  - intros labels namespace s' Hin Hdone.
    apply FindTestTarget_done_inv in Hdone as [Hall ->].
    cbn [discovered TestTarget.Operators]. apply elem_of_app. right.
    apply builtOperators_elem_of; [exact Hall|exact Hin|].
    unfold subscriptionNameOf. now rewrite Hsub.
Qed.

Lemma buildOperator_without_subscription_witness :
  let csv := Fixture.csv "etcd" ∅ in
  let env := Fixture.cluster [] [csv] (Ok []) (Ok []) RunFailed in
  let err := AnnotationMissing "test-network-function.com/subscription_name" in
  GetAnnotationValue env (CSVResource.Metadata csv) (subscriptionNameAnnotationName env)
  = Err err /\
  exists op l,
    buildOperatorFromCSVResource env csv Fixture.s0
    = (Done op, mkSt TestTarget.empty (l ++ [Warnf_subscription_name "etcd" err])) /\
    Operator.SubscriptionName op = EmptyString /\
    Operator.Name op = "etcd" /\
    Operator.Namespace op = "tnf" /\
    Operator.Tests op = operatorTestsOf env csv.
Proof.
  intros csv env err.
  assert (Hsub :
    GetAnnotationValue env (CSVResource.Metadata csv) (subscriptionNameAnnotationName env)
    = Err err) by (vm_compute; reflexivity).
  split; [exact Hsub|].
  exact (proj1 (buildOperator_without_subscription env csv Fixture.s0 err Hsub)).
Defined.

(** The operator of the witness, in the catalog after a whole run. *)
Lemma FindTestTarget_keeps_operator_without_subscription :
  let csv := Fixture.csv "etcd" ∅ in
  let env := Fixture.cluster [] [csv] (Ok []) (Ok []) RunFailed in
  exists s',
    FindTestTarget env [Fixture.targetLabel] Fixture.ns Fixture.s0 = (Done tt, s') /\
    TestTarget.Operators (target s')
    = [Operator.mk "etcd" "tnf" ["operator-status"] EmptyString].
Proof. eexists. split; vm_compute; reflexivity. Qed.

(** ** Suffixes *)

Lemma string_length_app (p q : string) :
  String.length (p +:+ q) = (String.length p + String.length q)%nat.
Proof. induction p as [|c p IH]; simpl; [reflexivity|now rewrite IH]. Qed.

Lemma substring_whole (s : string) : String.substring 0 (String.length s) s = s.
Proof. induction s as [|c s IH]; simpl; [reflexivity|now rewrite IH]. Qed.

Lemma substring_app_r (p q : string) :
  String.substring (String.length p) (String.length q) (p +:+ q) = q.
Proof. induction p as [|c p IH]; simpl; [apply substring_whole|exact IH]. Qed.

Lemma substring_split (n : nat) (s : string) :
  (n <= String.length s)%nat ->
  s = String.substring 0 n s +:+ String.substring n (String.length s - n) s.
Proof.
  revert n. induction s as [|c s IH]; intros [|n] Hle; simpl in *; try lia.
  - reflexivity.
  - now rewrite substring_whole.
  - change (String c s
            = String c (String.substring 0 n s
                        +:+ String.substring n (String.length s - n) s)).
    f_equal. apply IH. lia.
Qed.

(** [HasSuffix] holds exactly of the strings that end with the suffix. *)
Lemma HasSuffix_spec (s suffix : string) :
  HasSuffix s suffix = true <-> exists prefix, s = prefix +:+ suffix.
Proof.
  unfold HasSuffix. rewrite andb_true_iff, Nat.leb_le, String.eqb_eq. split.
  - intros [Hle Hsub].
    exists (String.substring 0 (String.length s - String.length suffix) s).
    rewrite (substring_split (String.length s - String.length suffix) s) at 1 by lia.
    f_equal. rewrite <- Hsub at 3. f_equal. lia.
  - intros [prefix ->]. rewrite string_length_app. split; [lia|].
    replace (String.length prefix + String.length suffix - String.length suffix)%nat
      with (String.length prefix) by lia.
    apply substring_app_r.
Qed.

(** ** CRD names *)

(** The loop with [break] keeps a name exactly when some filter matches. *)
Lemma matchCrdFilters_spec (crdName : string) (crdFilters : list CrdFilter.t)
    (targetCrdNames : list string) :
  matchCrdFilters crdName crdFilters targetCrdNames
  = if matchesSomeFilter crdFilters crdName then targetCrdNames ++ [crdName]
    else targetCrdNames.
Proof.
  unfold matchesSomeFilter.
  induction crdFilters as [|crdFilter rest IH]; simpl; [reflexivity|].
  destruct (HasSuffix crdName (CrdFilter.NameSuffix crdFilter)); simpl; [reflexivity|exact IH].
Qed.

Lemma crd_loop_filter (crdFilters : list CrdFilter.t) (clusterCrdNames acc : list string) :
  foldl (fun targetCrdNames crdName => matchCrdFilters crdName crdFilters targetCrdNames)
    acc clusterCrdNames
  = acc ++ List.filter (matchesSomeFilter crdFilters) clusterCrdNames.
Proof.
  revert acc. induction clusterCrdNames as [|crdName names IH]; intros acc; simpl.
  - now rewrite app_nil_r.
  - rewrite IH, matchCrdFilters_spec.
    destruct (matchesSomeFilter crdFilters crdName); [|reflexivity].
    now rewrite <- app_assoc.
Qed.

Lemma matchesSomeFilter_spec (crdFilters : list CrdFilter.t) (crdName : string) :
  matchesSomeFilter crdFilters crdName = true <->
  exists crdFilter prefix,
    crdFilter ∈ crdFilters /\ crdName = prefix +:+ CrdFilter.NameSuffix crdFilter.
Proof.
  unfold matchesSomeFilter. rewrite existsb_exists. split.
  - intros (crdFilter & Hin & Hsuffix). apply HasSuffix_spec in Hsuffix as [prefix ->].
    exists crdFilter, prefix. now rewrite list_elem_of_In.
  - intros (crdFilter & prefix & Hin & ->). exists crdFilter.
    rewrite <- list_elem_of_In. split; [exact Hin|]. apply HasSuffix_spec. eauto.
Qed.

Lemma elem_of_filter_matches (crdFilters : list CrdFilter.t) (clusterCrdNames : list string)
    (crdName : string) :
  crdName ∈ List.filter (matchesSomeFilter crdFilters) clusterCrdNames <->
  crdName ∈ clusterCrdNames /\
  exists crdFilter prefix,
    crdFilter ∈ crdFilters /\ crdName = prefix +:+ CrdFilter.NameSuffix crdFilter.
Proof.
  now rewrite list_elem_of_In, filter_In, <- list_elem_of_In, matchesSomeFilter_spec.
Qed.

Lemma filter_sublist {A} (f : A -> bool) (l : list A) : sublist (List.filter f l) l.
Proof.
  induction l as [|x l IH]; simpl; [constructor|].
  destruct (f x); now constructor.
Qed.

(** [ExecuteCommand] on the CRD listing command, when the handler runs and
    matches once. *)
Lemma ExecuteCommand_matched (env : Externals) (callback : M unit) (out : string) (s : St) :
  runGenericCommand env ocGetClusterCrdNamesCommand = RunSucceeded [out] ->
  ExecuteCommand env ocGetClusterCrdNamesCommand callback s
  = (Done out, mkSt (target s) (logs s ++ [Debugf_executing ocGetClusterCrdNamesCommand])).
Proof.
  intros Hrun. unfold ExecuteCommand.
  change (escapeQuotes ocGetClusterCrdNamesCommand) with ocGetClusterCrdNamesCommand.
  rewrite Hrun. reflexivity.
Qed.

(** C6. When the CRD listing runs and decodes to [clusterCrdNames],
    [FindTestCrdNames] returns the names that end with the suffix of some
    filter, each entry of the cluster list at most once however many filters
    it matches, in the order of the cluster list: the result is the cluster
    list filtered by the test that some filter matches, hence a sublist of
    it. *)
Theorem FindTestCrdNames_filters_in_order
    (env : Externals) (crdFilters : list CrdFilter.t) (s : St)
    (out : string) (clusterCrdNames : list string) :
  runGenericCommand env ocGetClusterCrdNamesCommand = RunSucceeded [out] ->
  jsonUnmarshal env out = Ok clusterCrdNames ->
  exists targetCrdNames,
    FindTestCrdNames env crdFilters s
    = (Done targetCrdNames,
       mkSt (target s) (logs s ++ [Debugf_executing ocGetClusterCrdNamesCommand])) /\
    targetCrdNames = List.filter (matchesSomeFilter crdFilters) clusterCrdNames /\
    sublist targetCrdNames clusterCrdNames /\
    (forall crdName,
       crdName ∈ targetCrdNames <->
       crdName ∈ clusterCrdNames /\
       exists crdFilter prefix,
         crdFilter ∈ crdFilters /\ crdName = prefix +:+ CrdFilter.NameSuffix crdFilter).
Proof.
  intros Hrun Hjson. eexists.
  split; [|split; [reflexivity|split; [apply filter_sublist|apply elem_of_filter_matches]]].
  assert (Hget : getClusterCrdNames env s
                 = (Done (Ok clusterCrdNames),
                    mkSt (target s) (logs s ++ [Debugf_executing ocGetClusterCrdNamesCommand]))).
  { unfold getClusterCrdNames.
    rewrite (bind_done _ _ _ _ _ (ExecuteCommand_matched env _ out s Hrun)), Hjson.
    reflexivity. }
  unfold FindTestCrdNames. rewrite (bind_done _ _ _ _ _ Hget). run.
  now rewrite crd_loop_filter.
Qed.

Lemma FindTestCrdNames_filters_in_order_witness :
  let names := ["foo.acme.io"; "bar.example.com"; "baz.acme.io"] in
  let env := Fixture.cluster [] [] (Ok []) (Ok [])
               (RunSucceeded [Fixture.jsonArray names]) in
  let crdFilters := [CrdFilter.mk "acme.io"; CrdFilter.mk "acme.io"] in
  runGenericCommand env ocGetClusterCrdNamesCommand = RunSucceeded [Fixture.jsonArray names] /\
  jsonUnmarshal env (Fixture.jsonArray names) = Ok names /\
  exists targetCrdNames,
    FindTestCrdNames env crdFilters Fixture.s0
    = (Done targetCrdNames,
       mkSt TestTarget.empty [Debugf_executing ocGetClusterCrdNamesCommand]) /\
    targetCrdNames = ["foo.acme.io"; "baz.acme.io"] /\
    sublist targetCrdNames names.
Proof.
  intros names env crdFilters.
  assert (Hrun : runGenericCommand env ocGetClusterCrdNamesCommand
                 = RunSucceeded [Fixture.jsonArray names]) by reflexivity.
  assert (Hjson : jsonUnmarshal env (Fixture.jsonArray names) = Ok names)
    by (vm_compute; reflexivity).
  split; [exact Hrun|]. split; [exact Hjson|].
  destruct (FindTestCrdNames_filters_in_order env crdFilters Fixture.s0 _ _ Hrun Hjson)
    as (targetCrdNames & Hfind & Hfilter & Hsub & _).
  exists targetCrdNames. split; [exact Hfind|]. split; [|exact Hsub].
  rewrite Hfilter. vm_compute. reflexivity.
Defined.

(** The CRD example of the specification, evaluated with one filter. *)
Lemma FindTestCrdNames_acme :
  let names := ["foo.acme.io"; "bar.example.com"; "baz.acme.io"] in
  let env := Fixture.cluster [] [] (Ok []) (Ok [])
               (RunSucceeded [Fixture.jsonArray names]) in
  fst (FindTestCrdNames env [CrdFilter.mk "acme.io"] Fixture.s0)
  = Done ["foo.acme.io"; "baz.acme.io"].
Proof. vm_compute. reflexivity. Qed.

(** C7. When the output of the CRD listing does not decode as a JSON list
    of strings, [FindTestCrdNames] logs that the cluster CRDs cannot be got
    and returns the empty list; it does not panic and does not touch the
    catalog. *)
Theorem FindTestCrdNames_decode_failure
    (env : Externals) (crdFilters : list CrdFilter.t) (s : St) (out : string) (err : error) :
  runGenericCommand env ocGetClusterCrdNamesCommand = RunSucceeded [out] ->
  jsonUnmarshal env out = Err err ->
  getClusterCrdNames env s
  = (Done (Err err),
     mkSt (target s) (logs s ++ [Debugf_executing ocGetClusterCrdNamesCommand])) /\
  FindTestCrdNames env crdFilters s
  = (Done [],
     mkSt (target s)
       (logs s ++ [Debugf_executing ocGetClusterCrdNamesCommand; Errorf_cluster_crd])).
Proof.
  intros Hrun Hjson.
  assert (Hget : getClusterCrdNames env s
                 = (Done (Err err),
                    mkSt (target s) (logs s ++ [Debugf_executing ocGetClusterCrdNamesCommand]))).
  { unfold getClusterCrdNames.
    rewrite (bind_done _ _ _ _ _ (ExecuteCommand_matched env _ out s Hrun)), Hjson.
    reflexivity. }
  split; [exact Hget|].
  unfold FindTestCrdNames. rewrite (bind_done _ _ _ _ _ Hget). run.
  now rewrite <- app_assoc.
Qed.

Lemma FindTestCrdNames_decode_failure_witness :
  let env := Fixture.cluster [] [] (Ok []) (Ok []) (RunSucceeded ["error: no resources"]) in
  let err := DecodeFailure "json: cannot unmarshal into Go value of type []string" in
  runGenericCommand env ocGetClusterCrdNamesCommand = RunSucceeded ["error: no resources"] /\
  jsonUnmarshal env "error: no resources" = Err err /\
  FindTestCrdNames env [CrdFilter.mk "acme.io"] Fixture.s0
  = (Done [],
     mkSt TestTarget.empty [Debugf_executing ocGetClusterCrdNamesCommand; Errorf_cluster_crd]).
Proof.
  intros env err.
  assert (Hrun : runGenericCommand env ocGetClusterCrdNamesCommand
                 = RunSucceeded ["error: no resources"]) by reflexivity.
  assert (Hjson : jsonUnmarshal env "error: no resources" = Err err)
    by (vm_compute; reflexivity).
  split; [exact Hrun|]. split; [exact Hjson|].
  exact (proj2 (FindTestCrdNames_decode_failure
                  env [CrdFilter.mk "acme.io"] Fixture.s0 _ err Hrun Hjson)).
Defined.

Lemma FindTestCrdNames_run (env : Externals) (crdFilters : list CrdFilter.t) (s : St) :
  exists lg,
    FindTestCrdNames env crdFilters s
    = (crdNamesOutcome env crdFilters, mkSt (target s) (logs s ++ lg)).
Proof.
  unfold FindTestCrdNames, getClusterCrdNames, ExecuteCommand, crdNamesOutcome.
  destruct (runGenericCommand env _) as [| |[|out [|out' matches]]]; run.
  - eauto.
  - rewrite <- app_assoc. eauto.
  - eauto.
  - destruct (jsonUnmarshal env out) as [clusterCrdNames|err]; simpl.
    + rewrite crd_loop_filter. eauto.
    + rewrite <- app_assoc. eauto.
  - eauto.
Qed.

(** ** Repeated discovery *)

(** C9. Two runs of [FindTestTarget] with the same labels and namespace on
    the same cluster, each started on an empty catalog, end the same way and
    leave catalogs with the same pods, container configurations, operators
    and deployments up to order and the same node map; [FindTestCrdNames]
    with the same filters returns the same names after either run. The logs
    [logs1] and [logs2] at the start of the runs are arbitrary: the second
    run may start on the log the first one left. *)
Theorem discovery_repeatable
    (env : Externals) (labels : list Label.t) (namespace : string)
    (crdFilters : list CrdFilter.t) (logs1 logs2 : list LogEntry) :
  let run1 := FindTestTarget env labels namespace (mkSt TestTarget.empty logs1) in
  let run2 := FindTestTarget env labels namespace (mkSt TestTarget.empty logs2) in
  fst run1 = fst run2 /\
  catalogEquiv (target (snd run1)) (target (snd run2)) /\
  fst (FindTestCrdNames env crdFilters (snd run1))
  = fst (FindTestCrdNames env crdFilters (snd run2)).
Proof.
  intros run1 run2. subst run1 run2.
  destruct (FindTestTarget_run env labels namespace (mkSt TestTarget.empty logs1))
    as [lg1 H1].
  destruct (FindTestTarget_run env labels namespace (mkSt TestTarget.empty logs2))
    as [lg2 H2].
  rewrite H1, H2. clear H1 H2. cbn [target logs].
  assert (Hcrd : forall s1 s2,
            fst (FindTestCrdNames env crdFilters s1) = fst (FindTestCrdNames env crdFilters s2)).
  { intros s1 s2.
    destruct (FindTestCrdNames_run env crdFilters s1) as [lg3 ->].
    destruct (FindTestCrdNames_run env crdFilters s2) as [lg4 ->].
    reflexivity. }
  destruct (decide (subscriptionsIndexable env (csvResourcesOf env namespace)));
    cbn [fst snd target]; (split; [reflexivity|]); (split; [|apply Hcrd]);
    repeat split; reflexivity.
Qed.

(** Without the empty start the runs add up: a second run on the catalog of
    the first lists the pod twice. *)
Lemma FindTestTarget_twice_on_one_catalog :
  let env := Fixture.cluster [Fixture.pod "p" ∅] [] (Ok []) (Ok []) RunFailed in
  let run1 := FindTestTarget env [Fixture.targetLabel] Fixture.ns Fixture.s0 in
  let run2 := FindTestTarget env [Fixture.targetLabel] Fixture.ns (snd run1) in
  TestTarget.PodsUnderTest (target (snd run1)) = [Pod.mk "p" "tnf" "default" 1 ["generic"]] /\
  TestTarget.PodsUnderTest (target (snd run2))
  = [Pod.mk "p" "tnf" "default" 1 ["generic"]; Pod.mk "p" "tnf" "default" 1 ["generic"]].
Proof. split; vm_compute; reflexivity. Qed.

(** * Further properties *)

(** ** [Split] *)

Lemma Split_nonempty (s : string) (sep : Ascii.ascii) : Split s sep <> [].
Proof.
  induction s as [|c rest IH]; simpl; [discriminate|].
  destruct (Ascii.eqb c sep); [discriminate|].
  destruct (Split rest sep); discriminate.
Qed.

Lemma Split_free (s : string) (sep : Ascii.ascii) :
  freeOf sep s = true -> Split s sep = [s].
Proof.
  induction s as [|c rest IH]; simpl; [reflexivity|].
  intros [Hc Hrest]%andb_true_iff. apply negb_true_iff in Hc. rewrite Hc.
  now rewrite (IH Hrest).
Qed.

Lemma Split_cut (prefix rest : string) (sep : Ascii.ascii) :
  freeOf sep prefix = true ->
  Split (prefix +:+ String sep rest) sep = prefix :: Split rest sep.
Proof.
  induction prefix as [|c prefix IH]; intros Hfree.
  - change (EmptyString +:+ String sep rest) with (String sep rest).
    simpl. now rewrite Ascii.eqb_refl.
  - simpl in Hfree. apply andb_true_iff in Hfree as [Hc Hfree].
    apply negb_true_iff in Hc.
    change (String c prefix +:+ String sep rest)
      with (String c (prefix +:+ String sep rest)).
    simpl. rewrite Hc, (IH Hfree). reflexivity.
Qed.

(** ** [ArgListToMap] *)

Lemma ArgListToMap_snoc (lst : list string) (arg : string) :
  ArgListToMap (lst ++ [arg]) = retval ← ArgListToMap lst; argStep retval arg.
Proof. unfold ArgListToMap. rewrite foldl_app. reflexivity. Qed.

Lemma argStep_is_Some (retval : gmap string string) (arg : string) :
  is_Some (argStep retval arg).
Proof.
  unfold argStep. pose proof (Split_nonempty arg equalsSign) as Hne.
  destruct (Split arg equalsSign) as [|key [|value pieces]]; [congruence| |]; cbn; eauto.
Qed.

Lemma argStep_key (retval : gmap string string) (arg : string) :
  exists key value,
    head (Split arg equalsSign) = Some key /\
    argStep retval arg = Some (<[key := value]> retval).
Proof.
  unfold argStep. pose proof (Split_nonempty arg equalsSign) as Hne.
  destruct (Split arg equalsSign) as [|key [|value pieces]]; [congruence| |]; cbn; eauto.
Qed.

(** X1. [ArgListToMap] never panics: the indices 0 and 1 it reads are in
    range for every argument. The keys of the map are exactly the first
    pieces of the arguments, so the map has at most one entry per argument. *)
Theorem ArgListToMap_total (lst : list string) :
  exists retval,
    ArgListToMap lst = Some retval /\
    (forall key, is_Some (retval !! key) <->
                 exists arg, arg ∈ lst /\ head (Split arg equalsSign) = Some key) /\
    (size retval <= length lst)%nat.
Proof.
  induction lst as [|arg lst IH] using rev_ind.
  - exists ∅. split; [reflexivity|]. split; [|rewrite map_size_empty; simpl; lia].
    intros key. rewrite lookup_empty. split.
    + intros [x Hx]. discriminate.
    + intros (arg & Hin & _). now apply elem_of_nil in Hin.
  - destruct IH as (retval & Hrun & Hkeys & Hsize).
    rewrite ArgListToMap_snoc, Hrun. cbn.
    destruct (argStep_key retval arg) as (k & v & Hhead & ->).
    eexists. split; [reflexivity|]. split.
    + intros key. rewrite lookup_insert_is_Some, Hkeys. split.
      * intros [<-|[_ (a & Hin & Ha)]].
        -- exists arg. split; [apply elem_of_app; right; left|exact Hhead].
        -- exists a. split; [apply elem_of_app; now left|exact Ha].
      * intros (a & [Hin|Hin%list_elem_of_singleton]%elem_of_app & Ha).
        -- destruct (decide (k = key)) as [->|Hne]; [now left|]. right. eauto.
        -- subst a. left. congruence.
    + rewrite length_app. simpl.
      rewrite map_size_insert. destruct (retval !! k); simpl; lia.
Qed.

Lemma Split_keyValueArg (key value : string) :
  freeOf equalsSign key = true -> freeOf equalsSign value = true ->
  Split (keyValueArg (key, value)) equalsSign = [key; value].
Proof.
  intros Hkey Hvalue. unfold keyValueArg. cbn [fst snd].
  now rewrite Split_cut, Split_free.
Qed.

(** X2. Round trip. For pairs whose keys and values hold no equals sign,
    [ArgListToMap] of the arguments key=value is the map of the pairs, and
    of two pairs with one key the later one stays. *)
Theorem ArgListToMap_keyValueArgs (kvs : list (string * string)) :
  Forall (fun kv => freeOf equalsSign kv.1 = true /\ freeOf equalsSign kv.2 = true) kvs ->
  ArgListToMap (map keyValueArg kvs) = Some (list_to_map (reverse kvs)).
Proof.
  induction kvs as [|[key value] kvs IH] using rev_ind; intros Hfree.
  - reflexivity.
  - apply Forall_app in Hfree as [Hkvs Hkv].
    apply Forall_singleton in Hkv as [Hkey Hvalue]. cbn [fst snd] in Hkey, Hvalue.
    rewrite map_app, reverse_snoc. cbn [map].
    rewrite ArgListToMap_snoc, (IH Hkvs). cbn.
    unfold argStep. rewrite (Split_keyValueArg key value Hkey Hvalue). reflexivity.
Qed.

Lemma ArgListToMap_keyValueArgs_witness :
  let kvs := [("mode", "fast"); ("level", "3"); ("mode", "slow")] in
  Forall (fun kv => freeOf equalsSign kv.1 = true /\ freeOf equalsSign kv.2 = true) kvs /\
  ArgListToMap ["mode=fast"; "level=3"; "mode=slow"]
  = Some (<["mode" := "slow"]> (<["level" := "3"]> (<["mode" := "fast"]> ∅))).
Proof.
  intros kvs.
  assert (Hfree : Forall (fun kv => freeOf equalsSign kv.1 = true
                                    /\ freeOf equalsSign kv.2 = true) kvs)
    by (repeat constructor).
  split; [exact Hfree|].
  exact (ArgListToMap_keyValueArgs kvs Hfree).
Defined.

(** X3. An argument without an equals sign is a key with the empty value;
    it replaces what an earlier argument gave that key. *)
Theorem ArgListToMap_flag (lst : list string) (arg : string) :
  freeOf equalsSign arg = true ->
  ArgListToMap (lst ++ [arg]) = (fun retval => <[arg := EmptyString]> retval) <$> ArgListToMap lst.
Proof.
  intros Hfree. rewrite ArgListToMap_snoc.
  destruct (ArgListToMap lst) as [retval|]; [|reflexivity]. cbn.
  unfold argStep. rewrite (Split_free arg equalsSign Hfree). reflexivity.
Qed.

Lemma ArgListToMap_flag_witness :
  freeOf equalsSign "verbose" = true /\
  ArgListToMap ["verbose=1"; "verbose"] = Some {[ "verbose" := EmptyString ]}.
Proof.
  assert (Hfree : freeOf equalsSign "verbose" = true) by reflexivity.
  split; [exact Hfree|].
  pose proof (ArgListToMap_flag ["verbose=1"] "verbose" Hfree) as Hflag.
  cbn [app] in Hflag. rewrite Hflag. vm_compute. reflexivity.
Defined.

(** X4. Of an argument with more than one equals sign only the text between
    the first two is the value: what follows the second equals sign is
    dropped. *)
Theorem ArgListToMap_second_equals (lst : list string) (key value rest : string) :
  freeOf equalsSign key = true ->
  freeOf equalsSign value = true ->
  ArgListToMap (lst ++ [key +:+ String equalsSign (value +:+ String equalsSign rest)])
  = (fun retval => <[key := value]> retval) <$> ArgListToMap lst.
Proof.
  intros Hkey Hvalue. rewrite ArgListToMap_snoc.
  destruct (ArgListToMap lst) as [retval|]; [|reflexivity]. cbn.
  unfold argStep. rewrite (Split_cut key _ _ Hkey), (Split_cut value _ _ Hvalue).
  pose proof (Split_nonempty rest equalsSign) as Hne.
  destruct (Split rest equalsSign) as [|piece pieces]; [congruence|]. reflexivity.
Qed.

Lemma ArgListToMap_second_equals_witness :
  freeOf equalsSign "url" = true /\
  freeOf equalsSign "http://host/?a" = true /\
  ArgListToMap ["url=http://host/?a=b"] = Some {[ "url" := "http://host/?a" ]}.
Proof.
  assert (Hkey : freeOf equalsSign "url" = true) by reflexivity.
  assert (Hvalue : freeOf equalsSign "http://host/?a" = true) by reflexivity.
  split; [exact Hkey|]. split; [exact Hvalue|].
  exact (ArgListToMap_second_equals [] "url" "http://host/?a" "b" Hkey Hvalue).
Defined.

(** ** [FilterArray] *)

Lemma FilterArray_loop (vs acc : list string) (f : string -> bool) :
  foldl (fun vsf v => if f v then vsf ++ [v] else vsf) acc vs = acc ++ List.filter f vs.
Proof.
  revert acc. induction vs as [|v vs IH]; intros acc; simpl.
  - now rewrite app_nil_r.
  - rewrite IH. destruct (f v); [|reflexivity]. now rewrite <- app_assoc.
Qed.

Lemma FilterArray_filter (vs : list string) (f : string -> bool) :
  FilterArray vs f = List.filter f vs.
Proof. unfold FilterArray. now rewrite FilterArray_loop. Qed.

(** X5. [FilterArray] keeps exactly the elements on which the predicate is
    true, in the order and with the multiplicity they have in the input. *)
Theorem FilterArray_keeps (vs : list string) (f : string -> bool) :
  sublist (FilterArray vs f) vs /\
  (forall v, v ∈ FilterArray vs f <-> v ∈ vs /\ f v = true) /\
  (forall v, f v = true ->
     count_occ String.string_dec (FilterArray vs f) v = count_occ String.string_dec vs v).
Proof.
  rewrite FilterArray_filter. split; [apply filter_sublist|]. split.
  - intros v. now rewrite !list_elem_of_In, filter_In.
  - intros v Hv. induction vs as [|x vs IH]; simpl; [reflexivity|].
    destruct (f x) eqn:Hx; simpl.
    + destruct (String.string_dec x v); now rewrite IH.
    + destruct (String.string_dec x v) as [->|_]; [congruence|exact IH].
Qed.

(** X6. Filtering twice is filtering once by both predicates; filtering
    again by the same predicate changes nothing. *)
Theorem FilterArray_twice (vs : list string) (f g : string -> bool) :
  FilterArray (FilterArray vs f) g = FilterArray vs (fun v => f v && g v) /\
  FilterArray (FilterArray vs f) f = FilterArray vs f.
Proof.
  rewrite !FilterArray_filter.
  assert (Hboth : forall h, List.filter h (List.filter f vs)
                            = List.filter (fun v => f v && h v) vs).
  { intros h. induction vs as [|v vs IH]; simpl; [reflexivity|].
    destruct (f v) eqn:Hf; simpl; [|exact IH].
    destruct (h v); now rewrite IH. }
  split; [apply Hboth|].
  rewrite Hboth. apply filter_ext. intros v. now destruct (f v).
Qed.

(** X7. The elements kept and the elements dropped make up the input. *)
Theorem FilterArray_partition (vs : list string) (f : string -> bool) :
  FilterArray vs f ++ FilterArray vs (fun v => negb (f v)) ≡ₚ vs /\
  (length (FilterArray vs f) <= length vs)%nat.
Proof.
  rewrite !FilterArray_filter. split.
  - induction vs as [|v vs IH]; simpl; [reflexivity|].
    destruct (f v); simpl.
    + now rewrite IH.
    + rewrite <- Permutation_middle. now rewrite IH.
  - apply filter_length_le.
Qed.

(** ** Escaping the command of [ExecuteCommand] *)

(** X8. The command handed to the generic handler is the command itself
    exactly when it holds no double quote; in general it is longer by one
    byte for every double quote. *)
Theorem escapeQuotes_unchanged_iff (command : string) :
  (escapeQuotes command = command <-> freeOf (Ascii.ascii_of_nat 34) command = true) /\
  (String.length command <= String.length (escapeQuotes command))%nat.
Proof.
  assert (Hlen : forall s, (String.length s <= String.length (escapeQuotes s))%nat).
  { induction s as [|c s IH]; simpl; [lia|].
    destruct (Ascii.eqb c (Ascii.ascii_of_nat 34)); simpl; lia. }
  split; [|apply Hlen].
  induction command as [|c command IH]; simpl; [tauto|].
  destruct (Ascii.eqb c (Ascii.ascii_of_nat 34)) eqn:Hc; simpl.
  - split; [|discriminate]. intros Heq.
    apply (f_equal String.length) in Heq. simpl in Heq.
    pose proof (Hlen command). lia.
  - rewrite <- IH. split; [now intros [= ->]|now intros ->].
Qed.

Lemma escapeQuotes_head (s : string) :
  match escapeQuotes s with
  | String c _ => c <> Ascii.ascii_of_nat 34
  | EmptyString => True
  end.
Proof.
  destruct s as [|c s]; simpl; [exact I|].
  destruct (Ascii.eqb c (Ascii.ascii_of_nat 34)) eqn:Hc; [discriminate|].
  now apply Ascii.eqb_neq.
Qed.

(** X9. Escaping loses nothing: two commands with the same escaped text are
    the same command. *)
Theorem escapeQuotes_injective (command1 command2 : string) :
  escapeQuotes command1 = escapeQuotes command2 -> command1 = command2.
Proof.
  revert command2.
  induction command1 as [|c1 s1 IH]; intros [|c2 s2]; simpl; try reflexivity.
  - destruct (Ascii.eqb c2 (Ascii.ascii_of_nat 34)); discriminate.
  - destruct (Ascii.eqb c1 (Ascii.ascii_of_nat 34)); discriminate.
  - destruct (Ascii.eqb c1 (Ascii.ascii_of_nat 34)) eqn:H1;
      destruct (Ascii.eqb c2 (Ascii.ascii_of_nat 34)) eqn:H2.
    + apply Ascii.eqb_eq in H1, H2. intros [= Heq]. subst. f_equal. now apply IH.
    + intros [= <- Heq]. pose proof (escapeQuotes_head s2) as Hhead.
      rewrite <- Heq in Hhead. apply Ascii.eqb_eq in H1. congruence.
    + intros [= -> Heq]. pose proof (escapeQuotes_head s1) as Hhead.
      rewrite Heq in Hhead. apply Ascii.eqb_eq in H2. congruence.
    + intros [= -> Heq]. f_equal. now apply IH.
Qed.

Lemma escapeQuotes_injective_witness :
  let command := "echo " +:+ String (Ascii.ascii_of_nat 34) "hi" in
  escapeQuotes command = escapeQuotes command /\ command = command.
Proof.
  intros command. split; [reflexivity|].
  exact (escapeQuotes_injective command command eq_refl).
Defined.

(** X10. In the escaped command every double quote stands directly behind a
    backslash. *)
Theorem escapeQuotes_quotesEscaped (command : string) (afterBackslash : bool) :
  quotesEscaped afterBackslash (escapeQuotes command) = true.
Proof.
  revert afterBackslash. induction command as [|c command IH]; intros b; simpl.
  - reflexivity.
  - destruct (Ascii.eqb c (Ascii.ascii_of_nat 34)) eqn:Hc; simpl.
    + rewrite Hc. simpl. apply IH.
    + rewrite Hc. apply IH.
Qed.

(** ** [FindTestDeployments] *)

Lemma FindTestDeployments_exact (env : Externals) (labels : list Label.t)
    (namespace : string) (s : St) :
  FindTestDeployments env labels namespace s
  = (Done (deploymentsOf env labels namespace),
     mkSt (target s) (logs s ++ deploymentErrorsOf env labels namespace)).
Proof.
  unfold FindTestDeployments.
  match goal with
  | |- context [foldRange labels [] ?body] =>
      assert (Hloop : forall acc s,
                foldRange labels acc body s
                = (Done (acc ++ deploymentsOf env labels namespace),
                   mkSt (target s) (logs s ++ deploymentErrorsOf env labels namespace)))
  end.
  { unfold deploymentsOf, deploymentErrorsOf. clear s.
    induction labels as [|label labels IH]; intros acc s; cbn [foldRange flat_map].
    - run. now rewrite !app_nil_r, mkSt_eta.
    - unfold deploymentsOfLabel at 1.
      destruct (GetTargetDeploymentsByNamespace env namespace label) as [lst|err].
      + erewrite bind_done by reflexivity.
        pose proof (foldl_snoc_map deploymentOf (DeploymentList.Items lst) acc) as Hfold.
        unfold deploymentOf in Hfold at 1. rewrite Hfold, IH, <- app_assoc. reflexivity.
      + erewrite bind_done by reflexivity.
        rewrite IH. cbn [target logs app]. now rewrite <- app_assoc. }
  exact (Hloop [] s).
Qed.

(** X11. [FindTestDeployments] never fails and never touches the catalog.
    It returns, in label order, the deployments of the labels whose query
    succeeds; a label whose query fails adds one error record, contributes
    no deployment and does not stop the labels after it. *)
Theorem FindTestDeployments_result (env : Externals) (labels : list Label.t)
    (namespace : string) (s : St) :
  FindTestDeployments env labels namespace s
  = (Done (flat_map (fun label =>
                       match GetTargetDeploymentsByNamespace env namespace label with
                       | Ok deploymentResourceList =>
                           map deploymentOf (DeploymentList.Items deploymentResourceList)
                       | Err _ => []
                       end) labels),
     mkSt (target s)
       (logs s ++ flat_map (fun label =>
                              match GetTargetDeploymentsByNamespace env namespace label with
                              | Ok _ => []
                              | Err err => [Error_deployment_list namespace err]
                              end) labels)).
Proof. apply FindTestDeployments_exact. Qed.

(** X12. The deployments of a list of labels are those of its first part
    followed by those of its second part, found one after the other: nothing
    is merged, so a label listed twice contributes its deployments twice. *)
Theorem FindTestDeployments_app (env : Externals) (labels1 labels2 : list Label.t)
    (namespace : string) (s : St) :
  exists deployments1 s1 deployments2 s2,
    FindTestDeployments env labels1 namespace s = (Done deployments1, s1) /\
    FindTestDeployments env labels2 namespace s1 = (Done deployments2, s2) /\
    FindTestDeployments env (labels1 ++ labels2) namespace s
    = (Done (deployments1 ++ deployments2), s2).
Proof.
  eexists _, _, _, _.
  split; [apply FindTestDeployments_exact|].
  split; [apply FindTestDeployments_exact|].
  rewrite FindTestDeployments_exact. cbn [target logs].
  unfold deploymentsOf, deploymentErrorsOf.
  now rewrite !flat_map_app, app_assoc.
Qed.

(** ** The tests of an operator *)



(** ** [FindTestTarget] on a catalog that is not empty *)

(** X14. [FindTestTarget] appends to the pods, container configurations,
    operators and deployments of the catalog it is given and replaces its
    exclusion list and its node map: the catalog after a run is the one
    before it followed by what the same run finds on an empty catalog.
    Nothing that was in the catalog is lost or reordered, also when the run
    panics. *)
Theorem FindTestTarget_appends (env : Externals) (labels : list Label.t)
    (namespace : string) (s : St) :
  let run := FindTestTarget env labels namespace s in
  let fresh := FindTestTarget env labels namespace (mkSt TestTarget.empty (logs s)) in
  let before := target s in
  let after := target (snd run) in
  let found := target (snd fresh) in
  fst run = fst fresh /\
  TestTarget.PodsUnderTest after
  = TestTarget.PodsUnderTest before ++ TestTarget.PodsUnderTest found /\
  TestTarget.ContainerConfigList after
  = TestTarget.ContainerConfigList before ++ TestTarget.ContainerConfigList found /\
  TestTarget.Operators after
  = TestTarget.Operators before ++ TestTarget.Operators found /\
  TestTarget.DeploymentsUnderTest after
  = TestTarget.DeploymentsUnderTest before ++ TestTarget.DeploymentsUnderTest found /\
  TestTarget.ExcludeContainersFromConnectivityTests after
  = TestTarget.ExcludeContainersFromConnectivityTests found /\
  TestTarget.Nodes after
  = match fst run with
    | Done _ => TestTarget.Nodes found
    | Panic _ => TestTarget.Nodes before
    end.
Proof.
  intros run fresh before after found. subst run fresh before after found.
  destruct (FindTestTarget_run env labels namespace s) as [lg1 ->].
  destruct (FindTestTarget_run env labels namespace (mkSt TestTarget.empty (logs s)))
    as [lg2 ->].
  destruct (decide (subscriptionsIndexable env (csvResourcesOf env namespace)));
    cbn; rewrite ?app_nil_r; repeat split; reflexivity.
Qed.

(** X15. Labels are handled one after the other and nothing is merged: on an
    empty catalog the pods, container configurations and deployments found
    for a list of labels are those found for its first part followed by
    those found for its second part, so a resource that matches two labels
    is listed twice. Operators, exclusion list and node map do not depend on
    the labels. *)
Theorem FindTestTarget_labels_app (env : Externals) (labels1 labels2 : list Label.t)
    (namespace : string) (lg : list LogEntry) :
  let found := fun labels =>
    target (snd (FindTestTarget env labels namespace (mkSt TestTarget.empty lg))) in
  TestTarget.PodsUnderTest (found (labels1 ++ labels2))
  = TestTarget.PodsUnderTest (found labels1) ++ TestTarget.PodsUnderTest (found labels2) /\
  TestTarget.ContainerConfigList (found (labels1 ++ labels2))
  = TestTarget.ContainerConfigList (found labels1)
    ++ TestTarget.ContainerConfigList (found labels2) /\
  TestTarget.DeploymentsUnderTest (found (labels1 ++ labels2))
  = TestTarget.DeploymentsUnderTest (found labels1)
    ++ TestTarget.DeploymentsUnderTest (found labels2) /\
  TestTarget.Operators (found (labels1 ++ labels2)) = TestTarget.Operators (found labels1) /\
  TestTarget.ExcludeContainersFromConnectivityTests (found (labels1 ++ labels2))
  = TestTarget.ExcludeContainersFromConnectivityTests (found labels1) /\
  TestTarget.Nodes (found (labels1 ++ labels2)) = TestTarget.Nodes (found labels1).
Proof.
  intros found. subst found. cbv beta.
  destruct (FindTestTarget_run env (labels1 ++ labels2) namespace (mkSt TestTarget.empty lg))
    as [lg12 ->].
  destruct (FindTestTarget_run env labels1 namespace (mkSt TestTarget.empty lg)) as [lg1 ->].
  destruct (FindTestTarget_run env labels2 namespace (mkSt TestTarget.empty lg)) as [lg2 ->].
  destruct (decide (subscriptionsIndexable env (csvResourcesOf env namespace)));
    cbn; unfold podResourcesOf, deploymentsOf;
    rewrite !flat_map_app, ?map_app; repeat split; reflexivity.
Qed.

(** The pod of a label listed twice is in the catalog twice. *)
Lemma FindTestTarget_label_twice :
  let env := Fixture.cluster [Fixture.pod "p" ∅] [] (Ok []) (Ok []) RunFailed in
  TestTarget.PodsUnderTest
    (target (snd (FindTestTarget env [Fixture.targetLabel; Fixture.targetLabel]
                    Fixture.ns Fixture.s0)))
  = [Pod.mk "p" "tnf" "default" 1 ["generic"]; Pod.mk "p" "tnf" "default" 1 ["generic"]].
Proof. vm_compute. reflexivity. Qed.

(** ** [GetNodesList], continued *)

(** X16. When the worker query fails after the master query succeeded,
    [GetNodesList] logs the error and keeps the master nodes: the map holds
    exactly the names of the master query, each with the master label
    alone. *)
Theorem GetNodesList_worker_failure (env : Externals) (s : St)
    (masters : list string) (err : error) :
  runNodeNames env (MasterLabel env) = Ok masters ->
  runNodeNames env (WorkerLabel env) = Err err ->
  exists nodes,
    GetNodesList env s = (Done nodes, mkSt (target s) (logs s ++ [Error_node_list err])) /\
    forall name,
      nodes !! name
      = if decide (name ∈ masters) then Some (Node.mk name [MasterLabel env]) else None.
Proof.
  intros Hmaster Hworker. exists (addMasterNodes env ∅ masters). split.
  - unfold GetNodesList. rewrite Hmaster, Hworker. reflexivity.
  - intros name. now rewrite addMasterNodes_lookup, lookup_empty.
Qed.

Lemma GetNodesList_worker_failure_witness :
  let env := Fixture.cluster [] [] (Ok ["master-0"]) (Err (QueryFailure "timeout")) RunFailed in
  runNodeNames env (MasterLabel env) = Ok ["master-0"] /\
  runNodeNames env (WorkerLabel env) = Err (QueryFailure "timeout") /\
  exists nodes,
    GetNodesList env Fixture.s0
    = (Done nodes, mkSt TestTarget.empty [Error_node_list (QueryFailure "timeout")]) /\
    forall name,
      nodes !! name
      = if decide (name ∈ ["master-0"]) then Some (Node.mk name [MasterLabel env]) else None.
Proof.
  intros env.
  assert (Hmaster : runNodeNames env (MasterLabel env) = Ok ["master-0"])
    by (vm_compute; reflexivity).
  assert (Hworker : runNodeNames env (WorkerLabel env) = Err (QueryFailure "timeout"))
    by (vm_compute; reflexivity).
  split; [exact Hmaster|]. split; [exact Hworker|].
  exact (GetNodesList_worker_failure env Fixture.s0 _ _ Hmaster Hworker).
Defined.

Lemma nodesOf_entry (env : Externals) (name : string) (node : Node.t) :
  nodesOf env !! name = Some node ->
  Node.Name node = name /\
  Node.Labels node <> [] /\
  (forall label, label ∈ Node.Labels node ->
                 label = MasterLabel env \/ label = WorkerLabel env).
Proof.
  unfold nodesOf.
  destruct (runNodeNames env (MasterLabel env)) as [masters|err];
    [|rewrite lookup_empty; discriminate].
  destruct (runNodeNames env (WorkerLabel env)) as [workers|err].
  - rewrite addWorkerNodes_lookup, addMasterNodes_lookup, lookup_empty.
    destruct (decide (name ∈ masters)).
    + intros [= <-]. cbn. split; [reflexivity|]. split; [discriminate|].
      intros label [->|Hin%elem_of_replicate]%elem_of_cons; [now left|right; tauto].
    + destruct (count_occ String.string_dec workers name) as [|k]; [discriminate|].
      intros [= <-]. cbn. split; [reflexivity|]. split; [discriminate|].
      intros label [->|Hin%elem_of_replicate]%elem_of_cons; right; [reflexivity|tauto].
  - rewrite addMasterNodes_lookup, lookup_empty.
    destruct (decide (name ∈ masters)); [|discriminate].
    intros [= <-]. cbn. split; [reflexivity|]. split; [discriminate|].
    intros label ->%list_elem_of_singleton. now left.
Qed.

(** X17. Whatever the two role queries answer, [GetNodesList] returns a map
    and leaves the catalog alone; every entry of the map is filed under the
    name of its node, has at least one label, and has no label other than
    the master and the worker label. *)
Theorem GetNodesList_entries (env : Externals) (s : St) :
  exists nodes s',
    GetNodesList env s = (Done nodes, s') /\
    target s' = target s /\
    forall name node,
      nodes !! name = Some node ->
      Node.Name node = name /\
      Node.Labels node <> [] /\
      (forall label, label ∈ Node.Labels node ->
                     label = MasterLabel env \/ label = WorkerLabel env).
Proof.
  destruct (GetNodesList_run env s) as [lg Hrun].
  eexists _, _. split; [exact Hrun|]. split; [reflexivity|].
  apply nodesOf_entry.
Qed.

(** ** [FindTestCrdNames], continued *)

Lemma FindTestCrdNames_listed (env : Externals) (crdFilters : list CrdFilter.t) (s : St)
    (out : string) (clusterCrdNames : list string) :
  runGenericCommand env ocGetClusterCrdNamesCommand = RunSucceeded [out] ->
  jsonUnmarshal env out = Ok clusterCrdNames ->
  fst (FindTestCrdNames env crdFilters s)
  = Done (List.filter (matchesSomeFilter crdFilters) clusterCrdNames).
Proof.
  intros Hrun Hjson. destruct (FindTestCrdNames_run env crdFilters s) as [lg ->].
  unfold crdNamesOutcome.
  change (escapeQuotes ocGetClusterCrdNamesCommand) with ocGetClusterCrdNamesCommand.
  now rewrite Hrun, Hjson.
Qed.

Lemma filter_sublist_impl {A} (f g : A -> bool) (l : list A) :
  (forall x, f x = true -> g x = true) ->
  sublist (List.filter f l) (List.filter g l).
Proof.
  intros Himpl. induction l as [|x l IH]; simpl; [constructor|].
  destruct (f x) eqn:Hf.
  - rewrite (Himpl x Hf). now constructor.
  - destruct (g x); [now constructor|exact IH].
Qed.

Lemma FindTestCrdNames_done_inv (env : Externals) (crdFilters : list CrdFilter.t)
    (s s' : St) (names : list string) :
  FindTestCrdNames env crdFilters s = (Done names, s') ->
  target s' = target s /\
  Debugf_executing ocGetClusterCrdNamesCommand ∈ logs s' /\
  exists out,
    runGenericCommand env ocGetClusterCrdNamesCommand = RunSucceeded [out] /\
    names = match jsonUnmarshal env out with
            | Ok clusterCrdNames => List.filter (matchesSomeFilter crdFilters) clusterCrdNames
            | Err _ => []
            end.
Proof.
  unfold FindTestCrdNames, getClusterCrdNames, ExecuteCommand.
  change (escapeQuotes ocGetClusterCrdNamesCommand) with ocGetClusterCrdNamesCommand.
  destruct (runGenericCommand env _) as [| |[|out [|out' matches]]]; run;
    try discriminate.
  destruct (jsonUnmarshal env out) as [clusterCrdNames|err] eqn:Hjson; simpl.
  - rewrite crd_loop_filter. intros [= <- <-]. cbn. split; [reflexivity|].
    split; [apply elem_of_app; right; left|].
    exists out. now rewrite Hjson.
  - intros [= <- <-]. cbn. split; [reflexivity|].
    split; [rewrite !elem_of_app, !elem_of_cons; tauto|].
    exists out. now rewrite Hjson.
Qed.

(** X18. Without any filter [FindTestCrdNames] selects no CRD, and it still
    runs the listing command before it finds that out. *)
Theorem FindTestCrdNames_no_filter (env : Externals) (s s' : St) (names : list string) :
  FindTestCrdNames env [] s = (Done names, s') ->
  names = [] /\
  target s' = target s /\
  Debugf_executing ocGetClusterCrdNamesCommand ∈ logs s'.
Proof.
  intros (Htarget & Hlog & out & _ & ->)%FindTestCrdNames_done_inv.
  split; [|split; [exact Htarget|exact Hlog]].
  destruct (jsonUnmarshal env out) as [clusterCrdNames|err]; [|reflexivity].
  induction clusterCrdNames as [|crdName clusterCrdNames IH]; [reflexivity|exact IH].
Qed.

Lemma FindTestCrdNames_no_filter_witness :
  let env := Fixture.cluster [] [] (Ok []) (Ok [])
               (RunSucceeded [Fixture.jsonArray ["foo.acme.io"]]) in
  let s' := mkSt TestTarget.empty [Debugf_executing ocGetClusterCrdNamesCommand] in
  FindTestCrdNames env [] Fixture.s0 = (Done [], s') /\
  Debugf_executing ocGetClusterCrdNamesCommand ∈ logs s'.
Proof.
  intros env s'.
  assert (Hrun : FindTestCrdNames env [] Fixture.s0 = (Done [], s'))
    by (vm_compute; reflexivity).
  split; [exact Hrun|].
  exact (proj2 (proj2 (FindTestCrdNames_no_filter env Fixture.s0 s' [] Hrun))).
Defined.

(** X19. A filter whose suffix is the empty string matches every name: with
    such a filter among the filters, [FindTestCrdNames] returns the whole
    list of the cluster. *)
Theorem FindTestCrdNames_empty_suffix (env : Externals) (crdFilters : list CrdFilter.t)
    (s : St) (out : string) (clusterCrdNames : list string) :
  runGenericCommand env ocGetClusterCrdNamesCommand = RunSucceeded [out] ->
  jsonUnmarshal env out = Ok clusterCrdNames ->
  CrdFilter.mk EmptyString ∈ crdFilters ->
  fst (FindTestCrdNames env crdFilters s) = Done clusterCrdNames.
Proof.
  intros Hrun Hjson Hin.
  rewrite (FindTestCrdNames_listed env crdFilters s out clusterCrdNames Hrun Hjson).
  f_equal. apply forallb_filter_id, forallb_forall. intros crdName _.
  apply matchesSomeFilter_spec. exists (CrdFilter.mk EmptyString), crdName.
  split; [exact Hin|]. cbn [CrdFilter.NameSuffix].
  clear. induction crdName as [|c crdName IH]; [reflexivity|].
  change (String c crdName +:+ EmptyString) with (String c (crdName +:+ EmptyString)).
  now rewrite <- IH.
Qed.

Lemma FindTestCrdNames_empty_suffix_witness :
  let names := ["foo.acme.io"; "bar.example.com"] in
  let env := Fixture.cluster [] [] (Ok []) (Ok [])
               (RunSucceeded [Fixture.jsonArray names]) in
  let crdFilters := [CrdFilter.mk "acme.io"; CrdFilter.mk EmptyString] in
  runGenericCommand env ocGetClusterCrdNamesCommand = RunSucceeded [Fixture.jsonArray names] /\
  jsonUnmarshal env (Fixture.jsonArray names) = Ok names /\
  CrdFilter.mk EmptyString ∈ crdFilters /\
  fst (FindTestCrdNames env crdFilters Fixture.s0) = Done names.
Proof.
  intros names env crdFilters.
  assert (Hrun : runGenericCommand env ocGetClusterCrdNamesCommand
                 = RunSucceeded [Fixture.jsonArray names]) by reflexivity.
  assert (Hjson : jsonUnmarshal env (Fixture.jsonArray names) = Ok names)
    by (vm_compute; reflexivity).
  assert (Hin : CrdFilter.mk EmptyString ∈ crdFilters) by (right; left).
  split; [exact Hrun|]. split; [exact Hjson|]. split; [exact Hin|].
  exact (FindTestCrdNames_empty_suffix env crdFilters Fixture.s0 _ names Hrun Hjson Hin).
Defined.

(** X20. More filters select more: when every filter of [crdFilters1] is
    also in [crdFilters2], the names selected with [crdFilters1] are, in the
    same order, among the names selected with [crdFilters2]. The order and
    the repetition of the filters do not matter. *)
Theorem FindTestCrdNames_more_filters (env : Externals)
    (crdFilters1 crdFilters2 : list CrdFilter.t) (s1 s2 : St)
    (out : string) (clusterCrdNames : list string) :
  runGenericCommand env ocGetClusterCrdNamesCommand = RunSucceeded [out] ->
  jsonUnmarshal env out = Ok clusterCrdNames ->
  crdFilters1 ⊆ crdFilters2 ->
  exists names1 names2,
    fst (FindTestCrdNames env crdFilters1 s1) = Done names1 /\
    fst (FindTestCrdNames env crdFilters2 s2) = Done names2 /\
    sublist names1 names2 /\
    (crdFilters2 ⊆ crdFilters1 -> names1 = names2).
Proof.
  intros Hrun Hjson Hsub. eexists _, _.
  split; [exact (FindTestCrdNames_listed env _ s1 out _ Hrun Hjson)|].
  split; [exact (FindTestCrdNames_listed env _ s2 out _ Hrun Hjson)|].
  assert (Himpl : forall fs1 fs2 : list CrdFilter.t, fs1 ⊆ fs2 ->
            forall crdName, matchesSomeFilter fs1 crdName = true ->
                            matchesSomeFilter fs2 crdName = true).
  { intros fs1 fs2 Hfs crdName.
    rewrite !matchesSomeFilter_spec. intros (f & prefix & Hin & ->). eauto. }
  split; [apply filter_sublist_impl, Himpl, Hsub|].
  intros Hsup. apply filter_ext. intros crdName.
  destruct (matchesSomeFilter crdFilters1 crdName) eqn:H1;
    destruct (matchesSomeFilter crdFilters2 crdName) eqn:H2; try reflexivity.
  - apply (Himpl _ _ Hsub) in H1. congruence.
  - apply (Himpl _ _ Hsup) in H2. congruence.
Qed.

Lemma FindTestCrdNames_more_filters_witness :
  let names := ["foo.acme.io"; "bar.example.com"; "baz.acme.io"] in
  let env := Fixture.cluster [] [] (Ok []) (Ok [])
               (RunSucceeded [Fixture.jsonArray names]) in
  let crdFilters1 := [CrdFilter.mk "acme.io"] in
  let crdFilters2 := [CrdFilter.mk "example.com"; CrdFilter.mk "acme.io"] in
  runGenericCommand env ocGetClusterCrdNamesCommand = RunSucceeded [Fixture.jsonArray names] /\
  jsonUnmarshal env (Fixture.jsonArray names) = Ok names /\
  crdFilters1 ⊆ crdFilters2 /\
  exists names1 names2,
    fst (FindTestCrdNames env crdFilters1 Fixture.s0) = Done names1 /\
    fst (FindTestCrdNames env crdFilters2 Fixture.s0) = Done names2 /\
    sublist names1 names2.
Proof.
  intros names env crdFilters1 crdFilters2.
  assert (Hrun : runGenericCommand env ocGetClusterCrdNamesCommand
                 = RunSucceeded [Fixture.jsonArray names]) by reflexivity.
  assert (Hjson : jsonUnmarshal env (Fixture.jsonArray names) = Ok names)
    by (vm_compute; reflexivity).
  assert (Hsub : crdFilters1 ⊆ crdFilters2).
  { intros f Hf. apply list_elem_of_singleton in Hf as ->. right. left. }
  split; [exact Hrun|]. split; [exact Hjson|]. split; [exact Hsub|].
  destruct (FindTestCrdNames_more_filters env crdFilters1 crdFilters2 Fixture.s0 Fixture.s0
              _ names Hrun Hjson Hsub) as (names1 & names2 & H1 & H2 & H3 & _).
  exists names1, names2. auto.
Defined.

(** ** When [FindTestTarget] returns *)

(** X21. [FindTestTarget] returns exactly when no CSV of a successful
    operator query has a [subscription_name] annotation that resolves to the
    empty list; whether the other queries fail or succeed does not matter.
    In particular it returns whenever the operator query itself fails. *)
Theorem FindTestTarget_returns_iff (env : Externals) (labels : list Label.t)
    (namespace : string) (s : St) :
  (exists s', FindTestTarget env labels namespace s = (Done tt, s')) <->
  (forall csvs csv,
     GetCSVsByLabel env operatorLabelName (anyLabelValue env) namespace = Ok csvs ->
     csv ∈ CSVList.Items csvs ->
     GetAnnotationValue env (CSVResource.Metadata csv) (subscriptionNameAnnotationName env)
     <> Ok []).
Proof.
  assert (Hindexable :
    subscriptionsIndexable env (csvResourcesOf env namespace) <->
    forall csvs csv,
      GetCSVsByLabel env operatorLabelName (anyLabelValue env) namespace = Ok csvs ->
      csv ∈ CSVList.Items csvs ->
      GetAnnotationValue env (CSVResource.Metadata csv) (subscriptionNameAnnotationName env)
      <> Ok []).
  { unfold subscriptionsIndexable, csvResourcesOf. rewrite Forall_forall.
    destruct (GetCSVsByLabel env operatorLabelName (anyLabelValue env) namespace)
      as [csvs|e].
    - split.
      + intros Hall csvs' csv [= <-] Hin Hsub.
        destruct (Hall csv Hin) as [name Hname].
        unfold subscriptionNameOf in Hname. rewrite Hsub in Hname. discriminate.
      + intros Hall csv Hin. specialize (Hall csvs csv eq_refl Hin).
        unfold subscriptionNameOf.
        destruct (GetAnnotationValue env _ _) as [[|first rest]|err]; [congruence| |];
          cbn; eauto.
    - split; [discriminate|]. intros _ csv Hin. now apply elem_of_nil in Hin. }
  rewrite <- Hindexable.
  destruct (FindTestTarget_run env labels namespace s) as [lg ->].
  destruct (decide (subscriptionsIndexable env (csvResourcesOf env namespace))) as [Hall|Hnot].
  - split; eauto.
  - split; [intros [s' Hdone]; discriminate|contradiction].
Qed.

(** X22. The catalog of a run that returns. Pods and container
    configurations come from the pod resources of the labels whose pod query
    succeeded, label by label and resource by resource; every CSV of the
    operator query gives one operator; deployments come from the labels
    whose deployment query succeeded; the exclusion list is the one the
    query for the skip label returned, error or not. A label whose pod query
    fails still contributes its deployments, and the other way round. *)
Theorem FindTestTarget_catalog (env : Externals) (labels : list Label.t)
    (namespace : string) (s s' : St) :
  FindTestTarget env labels namespace s = (Done tt, s') ->
  let before := target s in
  let after := target s' in
  let podResources := podResourcesOf env labels namespace in
  TestTarget.PodsUnderTest after
  = TestTarget.PodsUnderTest before ++ map (podOf env) podResources /\
  TestTarget.ContainerConfigList after
  = TestTarget.ContainerConfigList before
    ++ flat_map (buildContainersFromPodResource env) podResources /\
  length (TestTarget.Operators after)
  = (length (TestTarget.Operators before) + length (csvResourcesOf env namespace))%nat /\
  TestTarget.DeploymentsUnderTest after
  = TestTarget.DeploymentsUnderTest before ++ deploymentsOf env labels namespace /\
  TestTarget.ExcludeContainersFromConnectivityTests after
  = fst (getContainerIdentifiersByLabel env
           (Label.mk (tnfLabelPrefix env) skipConnectivityTestsLabel (anyLabelValue env))
           namespace) /\
  forall name, TestTarget.Nodes after !! name = nodesOf env !! name.
Proof.
  intros Hdone before after podResources. subst before after podResources.
  destruct (FindTestTarget_run env labels namespace s) as [lg Hrun].
  rewrite Hdone in Hrun.
  destruct (decide (subscriptionsIndexable env (csvResourcesOf env namespace))) as [Hall|_];
    [|discriminate].
  injection Hrun as ->. cbn.
  repeat split; try reflexivity.
  rewrite length_app. f_equal.
  unfold subscriptionsIndexable in Hall.
  induction Hall as [|csv csvs [name Hname] _ IH]; [reflexivity|].
  cbn. rewrite Hname. cbn. now rewrite IH.
Qed.

Lemma FindTestTarget_catalog_witness :
  let env := Fixture.cluster [Fixture.pod "p" ∅] [Fixture.csv "etcd" ∅]
               (Ok ["node-a"]) (Ok ["node-b"]) RunFailed in
  let failing := Label.mk "test-network-function.com" "other" "target" in
  exists s',
    FindTestTarget env [failing; Fixture.targetLabel] Fixture.ns Fixture.s0 = (Done tt, s') /\
    TestTarget.PodsUnderTest (target s') = [Pod.mk "p" "tnf" "default" 1 ["generic"]] /\
    TestTarget.DeploymentsUnderTest (target s')
    = [Deployment.mk "web" "tnf" 2; Deployment.mk "web" "tnf" 2] /\
    length (TestTarget.Operators (target s')) = 1%nat.
Proof.
  intros env failing.
  destruct (FindTestTarget env [failing; Fixture.targetLabel] Fixture.ns Fixture.s0)
    as [r s'] eqn:Hrun.
  assert (Hr : r = Done tt) by (apply (f_equal fst) in Hrun; vm_compute in Hrun; congruence).
  subst r. exists s'. split; [reflexivity|].
  destruct (FindTestTarget_catalog env [failing; Fixture.targetLabel] Fixture.ns
              Fixture.s0 s' Hrun) as (Hpods & _ & Hops & Hdeps & _).
  rewrite Hpods, Hdeps, Hops. repeat split; vm_compute; reflexivity.
Defined.

(** X23. Labels are a list, not a set. When both role queries succeed, the
    labels of a node are the master label, if the master query lists the
    name, followed by one worker label for every time the worker query
    lists it: a name listed twice by the worker query carries the worker
    label twice. A name that the master query lists twice has the master
    label once. *)
Theorem GetNodesList_labels (env : Externals) (s : St) (masters workers : list string) :
  runNodeNames env (MasterLabel env) = Ok masters ->
  runNodeNames env (WorkerLabel env) = Ok workers ->
  exists nodes,
    GetNodesList env s = (Done nodes, s) /\
    forall name,
      Node.Labels <$> nodes !! name
      = let labels :=
          (if decide (name ∈ masters) then [MasterLabel env] else [])
          ++ replicate (count_occ String.string_dec workers name) (WorkerLabel env) in
        if decide (labels = []) then None else Some labels.
Proof.
  intros Hmaster Hworker.
  exists (addWorkerNodes env (addMasterNodes env ∅ masters) workers). split.
  { unfold GetNodesList. rewrite Hmaster, Hworker. reflexivity. }
  intros name. rewrite addWorkerNodes_lookup, addMasterNodes_lookup, lookup_empty.
  destruct (decide (name ∈ masters)); [reflexivity|].
  now destruct (count_occ String.string_dec workers name).
Qed.

Lemma GetNodesList_labels_witness :
  let env := Fixture.cluster [] [] (Ok ["node-a"; "node-a"]) (Ok ["node-b"; "node-b"])
               RunFailed in
  runNodeNames env (MasterLabel env) = Ok ["node-a"; "node-a"] /\
  runNodeNames env (WorkerLabel env) = Ok ["node-b"; "node-b"] /\
  exists nodes,
    GetNodesList env Fixture.s0 = (Done nodes, Fixture.s0) /\
    Node.Labels <$> nodes !! "node-a" = Some [MasterLabel env] /\
    Node.Labels <$> nodes !! "node-b" = Some [WorkerLabel env; WorkerLabel env].
Proof.
  intros env.
  assert (Hmaster : runNodeNames env (MasterLabel env) = Ok ["node-a"; "node-a"])
    by (vm_compute; reflexivity).
  assert (Hworker : runNodeNames env (WorkerLabel env) = Ok ["node-b"; "node-b"])
    by (vm_compute; reflexivity).
  split; [exact Hmaster|]. split; [exact Hworker|].
  destruct (GetNodesList_labels env Fixture.s0 _ _ Hmaster Hworker) as (nodes & Hrun & Hlabels).
  exists nodes. split; [exact Hrun|].
  rewrite !Hlabels. split; vm_compute; reflexivity.
Defined.
